(** * solanastream-starter-ts: a shallow embedding of the NATS consumer

    The repository ships two near-duplicate variants of the same consumer:

    - the _core_ variant ([src/config.ts] lines 1-54 and the consumer of
      [src/unnamed/part_002]), which subscribes with plain NATS
      subscriptions and refuses to start without credentials;
    - the _JetStream_ variant ([src/config.ts] lines 55-132 and the consumer
      of [src/unnamed/part_001]), which binds ephemeral push consumers,
      acknowledges every message and falls back to an anonymous connection.

    JavaScript strings are modelled as [string], read as sequences of code
    units below 256; numbers produced by [parseInt] as [JSNumber]; the
    process environment as a [gmap string string]; the consumer object, the
    timers of the event loop and everything the program does to the outside
    world (log lines, file reads, broker calls) as a [World] threaded through
    a state-and-exception monad. *)

From Stdlib Require Import ZArith NArith Ascii String Strings.Byte DecimalString.
From stdpp Require Import base strings gmap list.

Open Scope string_scope.

(** ** JavaScript values *)

Module JS.
(** [undefined] or a string: the type of [process.env.X] and of the
    optional fields of the settings. *)
Definition str_opt := option string.

(** Truthiness of [string | undefined]: [undefined] and the empty string
    are falsy. *)
Definition truthy (v : str_opt) : bool :=
  match v with
  | Some (String _ _) => true
  | _ => false
  end.

(** [a || b] on [string | undefined]. *)
Definition or_else (a b : str_opt) : str_opt :=
  if truthy a then a else b.

(** [a || 'literal']. *)
Definition or_default (a : str_opt) (d : string) : string :=
  match a with
  | Some (String c s) => String c s
  | _ => d
  end.

(** The Numbers [parseInt] returns: [NaN], an integer, or an infinity.
    Numbers are binary64 values, so the integers that occur are those
    [to_Number] rounds to; [-0] is identified with [0]. *)
Inductive JSNumber :=
| NaN
| Num (z : Z)
| Infinity (negative : bool).

(** The binary64 value nearest to the natural number [m]: the 53 leading
    bits are kept and the [e] bits below them rounded away, a tie going to
    the even significand. *)
Definition round_binary64 (m : Z) : Z :=
  let e := (Z.log2 m - 52)%Z in
  if (e <=? 0)%Z then m
  else
    let q := Z.shiftr m e in
    let r := Z.land m (Z.ones e) in
    let half := Z.shiftl 1 (e - 1) in
    let q' := if (half <? r)%Z || ((r =? half)%Z && Z.odd q) then (q + 1)%Z else q in
    Z.shiftl q' e.

(** The Number value of a mathematical integer; what rounds to [2^1024] or
    more is an infinity. *)
Definition to_Number (z : Z) : JSNumber :=
  let m := round_binary64 (Z.abs z) in
  if (2 ^ 1024 <=? m)%Z then Infinity (z <? 0)%Z else Num (Z.sgn z * m).

Definition LF : string := String (ascii_of_nat 10) "".

(** White space and line terminators below code unit 256
    (TAB, LF, VT, FF, CR, SP, NBSP). *)
Definition is_space (c : ascii) : bool :=
  let n := N_of_ascii c in
  ((9 <=? n) && (n <=? 13) || (n =? 32) || (n =? 160))%N.

Fixpoint trimStart (s : string) : string :=
  match s with
  | String c r => if is_space c then trimStart r else s
  | "" => ""
  end.

(** [trimEnd] drops the white space that is followed by white space only. *)
Fixpoint trimEnd (s : string) : string :=
  match s with
  | "" => ""
  | String c r =>
      match trimEnd r with
      | "" => if is_space c then "" else String c ""
      | r' => String c r'
      end
  end.

(** [String.prototype.trim]. *)
Definition trim (s : string) : string := trimEnd (trimStart s).

(** [s.split(sep)] for a one-character separator: never the empty array. *)
Fixpoint split (sep : ascii) (s : string) : list string :=
  match s with
  | "" => [""]
  | String c r =>
      if Ascii.eqb c sep then "" :: split sep r
      else match split sep r with
           | h :: t => String c h :: t
           | [] => [String c ""]
           end
  end.

Arguments split sep%_char_scope s%_string_scope.

(** The value of a digit in the given radix, if it is one. *)
Definition digit_value (radix : Z) (c : ascii) : option Z :=
  let n := Z.of_N (N_of_ascii c) in
  let v := (if (48 <=? n) && (n <=? 57) then Some (n - 48)
            else if (97 <=? n) && (n <=? 122) then Some (n - 87)
            else if (65 <=? n) && (n <=? 90) then Some (n - 55)
            else None)%Z in
  match v with
  | Some d => if (d <? radix)%Z then Some d else None
  | None => None
  end.

(** Reads the longest prefix of digits; [acc] is [None] until a digit has
    been read. *)
Fixpoint parse_digits (radix : Z) (acc : option Z) (s : string) : option Z :=
  match s with
  | "" => acc
  | String c r =>
      match digit_value radix c with
      | Some d => parse_digits radix (Some (default 0 acc * radix + d)%Z) r
      | None => acc
      end
  end.

(** [parseInt(s)] without a radix: leading white space, an optional sign,
    an optional [0x]/[0X] prefix, then the longest run of digits, whose
    value is returned as a Number (correctly rounded, as Node does it). *)
Definition parseInt (s : string) : JSNumber :=
  let s1 := trimStart s in
  let '(sign, s2) :=
    match s1 with
    | String "-" r => ((-1)%Z, r)
    | String "+" r => (1%Z, r)
    | _ => (1%Z, s1)
    end in
  let '(radix, s3) :=
    match s2 with
    | String "0" (String "x" r) => (16%Z, r)
    | String "0" (String "X" r) => (16%Z, r)
    | _ => (10%Z, s2)
    end in
  match parse_digits radix None s3 with
  | Some m => to_Number (sign * m)
  | None => NaN
  end.

(** The decimal numeral of a natural number. *)
Definition decimal (m : Z) : string := NilZero.string_of_int (Z.to_int m).

(** The numeral [v] is read as the Number [m]. *)
Definition reads_back (m v : Z) : bool :=
  match to_Number v with
  | Num z => (z =? m)%Z
  | _ => false
  end.

(** The numerals of [k] significant digits that are read as [m], a Number
    of [d] digits: [m] cut after [k] digits, rounded down or up.  The result
    is the digits [s] and the exponent [n] of the numeral [s * 10^(n-k)];
    of two numerals that qualify the one nearer to [m] is taken, and the
    even one if they are equally near. *)
Definition digits_at (m d k : Z) : option (Z * Z) :=
  let p := (10 ^ (d - k))%Z in
  let lo := (m / p)%Z in
  let hi := (lo + 1)%Z in
  let up := if (hi =? 10 ^ k)%Z then ((10 ^ (k - 1))%Z, (d + 1)%Z) else (hi, d) in
  match reads_back m (lo * p), reads_back m (hi * p) with
  | true, true =>
      let below := (m - lo * p)%Z in
      let above := (hi * p - m)%Z in
      if (below <? above)%Z || ((below =? above)%Z && Z.even lo) then Some (lo, d)
      else Some up
  | true, false => Some (lo, d)
  | false, true => Some up
  | false, false => None
  end.

(** The shortest numeral that is read as [m]: its digits [s], their number
    [k] and the exponent [n].  Seventeen digits are enough for every
    binary64 value. *)
Fixpoint shortest_digits (fuel : nat) (m d k : Z) : Z * Z * Z :=
  match fuel with
  | O => (m, d, d)
  | S fuel' =>
      match digits_at m d k with
      | Some (s, n) => (s, k, n)
      | None => shortest_digits fuel' m d (k + 1)
      end
  end.

Fixpoint zeros (n : nat) : string :=
  match n with
  | O => ""
  | S n' => String "0" (zeros n')
  end.

(** The digits padded with zeros up to 21 digits, and in exponent notation
    beyond. *)
Definition print_digits (skn : Z * Z * Z) : string :=
  let '(s, k, n) := skn in
  if (n <=? 21)%Z then decimal s +:+ zeros (Z.to_nat (n - k))
  else
    match decimal s with
    | String c "" => String c ("e+" +:+ decimal (n - 1))
    | String c rest => String c ("." +:+ rest +:+ "e+" +:+ decimal (n - 1))
    | "" => ""
    end.

(** A natural number that is a Number, as a string.  Up to [2^53] every
    integer is a Number, no shorter numeral is read as [m], and all digits
    are printed. *)
Definition integer_toString (m : Z) : string :=
  if (m <=? 2 ^ 53)%Z then decimal m
  else print_digits (shortest_digits 17 m (Z.of_nat (String.length (decimal m))) 1).

(** Number to string, as a template literal does it. *)
Definition number_toString (n : JSNumber) : string :=
  match n with
  | NaN => "NaN"
  | Num z => (if (z <? 0)%Z then "-" else "") +:+ integer_toString (Z.abs z)
  | Infinity negative => if negative then "-Infinity" else "Infinity"
  end.

Definition nat_toString (n : nat) : string :=
  NilZero.string_of_uint (Nat.to_uint n).

(** [new TextEncoder().encode(s)]: UTF-8, one byte below 128 and two bytes
    from 128 to 255. *)
Definition encode_char (c : ascii) : list byte :=
  let n := N_of_ascii c in
  if (n <? 128)%N then [byte_of_ascii c]
  else [default x00 (Byte.of_N (192 + n / 64)); default x00 (Byte.of_N (128 + n mod 64))].

Fixpoint TextEncoder_encode (s : string) : list byte :=
  match s with
  | "" => []
  | String c r => encode_char c ++ TextEncoder_encode r
  end.

End JS.

(** ** Exceptions and the collaborators of the program *)

(** A thrown JavaScript value: [new Error(message)], or the [TypeError] of a
    property read on [undefined]. *)
Inductive Exn :=
| Error (message : string)
| TypeError (message : string).

(** A call either returns a value or throws. *)
Inductive Outcome (A : Type) :=
| Ret (a : A)
| Throw (e : Exn).

Arguments Ret {A} a.
Arguments Throw {A} e.

Definition is_Ret {A} (o : Outcome A) : bool :=
  match o with
  | Ret _ => true
  | Throw _ => false
  end.

(** The three authenticators of the NATS client that the consumers build. *)
Inductive Authenticator :=
| credsAuthenticator (creds : list byte)
| jwtAuthenticator (jwt : string)
| nkeyAuthenticator (seed : list byte).

Record TlsOptions := {
  tls_cert : JS.str_opt;
  tls_key : JS.str_opt;
  tls_ca : JS.str_opt
}.

(** [ConnectionOptions] of the NATS client, with the fields the consumers
    set; an absent [authenticator] is an anonymous connection. *)
Record ConnectionOptions := {
  servers : string;
  opts_name : string;
  authenticator : option Authenticator;
  opts_tls : option TlsOptions
}.

(** The consumer options of an ephemeral push subscriber, as
    [JetStream.subscribe] sets them (the delivery inbox is a random subject
    and is left out). *)
Record ConsumerOpts := {
  ackExplicit : bool;
  manualAck : bool;
  bindStream : string;
  maxDeliver : nat;
  deliverNew : bool
}.

(** What is outside the repository: the file system, [JSON], and the NATS
    client library.  Each call is a function that may throw.  A theorem
    stated for every [Platform] holds whatever these collaborators do. *)
Class Platform := {
  (** [readFileSync(path)], a buffer *)
  readFileSync : string -> Outcome (list byte);
  (** [readFileSync(path, 'utf-8')] *)
  readFileSync_utf8 : string -> Outcome string;
  (** parsed JSON values *)
  Json : Type;
  JSON_parse : string -> Outcome Json;
  (** [JSON.stringify(data, null, 2)] *)
  JSON_stringify : Json -> Outcome string;
  (** [StringCodec().decode(bytes)] *)
  StringCodec_decode : list byte -> Outcome string;
  (** the state of a [NatsConnection] *)
  Connection : Type;
  (** [connect(opts)] *)
  nats_connect : ConnectionOptions -> Outcome Connection;
  (** [nc.subscribe(subject)] *)
  nc_subscribe : Connection -> string -> Outcome unit;
  (** [nc.jetstream().subscribe(subject, opts)] *)
  js_subscribe : Connection -> string -> ConsumerOpts -> Outcome unit;
  (** [nc.drain()]: its result and the connection afterwards *)
  nc_drain : Connection -> Outcome unit * Connection
}.

(** A message delivered by a subscription: its payload and its sequence
    number in the subscription. *)
Record Msg := {
  data : list byte;
  seq : nat
}.

Inductive Level := error | warn | info.

(** The handle returned by [setInterval]. *)
Definition Timeout := nat.

Section Runtime.
Context `{P : Platform}.

(** Everything the process does that is visible from outside, in order. *)
Inductive Event :=
| Logged (component : string) (level : Level) (message : string)
| ConsoleLog (text : string)
| ConsoleWarn (text : string)
| ConsoleError (text : string)
| FileRead (path : string)
| Connect (opts : ConnectionOptions)
| Subscribed (subject : string)
| Drained
| Ack (msg : Msg)
| SinkCall (streamName : string) (value : Json)
| IntervalSet (ms : JS.JSNumber) (t : Timeout)
| IntervalCleared (t : Timeout).

(** The fields of [class Parser]. *)
Record Parser := {
  parser_messageCount : nat
}.

(** The fields of [class NATSConsumer]; [js] is a view of [nc] and
    [startTime] is only read by the statistics tick, so neither is kept. *)
Record NATSConsumer := {
  nc : option Connection;
  messageCount : nat;
  running : bool;
  parser : Parser;
  statsInterval : option Timeout
}.

(** The process: the one consumer object, the timers of the event loop that
    are still armed, and the trace of events so far. *)
Record World := {
  this : NATSConsumer;
  timers : gset Timeout;
  next_timer : Timeout;
  trace : list Event
}.

Definition set_this (c : NATSConsumer) (w : World) : World :=
  {| this := c; timers := timers w; next_timer := next_timer w; trace := trace w |}.

Definition set_nc (c : option Connection) (o : NATSConsumer) : NATSConsumer :=
  {| nc := c; messageCount := messageCount o; running := running o;
     parser := parser o; statsInterval := statsInterval o |}.

Definition set_messageCount (n : nat) (o : NATSConsumer) : NATSConsumer :=
  {| nc := nc o; messageCount := n; running := running o;
     parser := parser o; statsInterval := statsInterval o |}.

Definition set_running (b : bool) (o : NATSConsumer) : NATSConsumer :=
  {| nc := nc o; messageCount := messageCount o; running := b;
     parser := parser o; statsInterval := statsInterval o |}.

Definition set_parser (p : Parser) (o : NATSConsumer) : NATSConsumer :=
  {| nc := nc o; messageCount := messageCount o; running := running o;
     parser := p; statsInterval := statsInterval o |}.

Definition set_statsInterval (t : option Timeout) (o : NATSConsumer) : NATSConsumer :=
  {| nc := nc o; messageCount := messageCount o; running := running o;
     parser := parser o; statsInterval := t |}.

(** *** The monad: state passing with exceptions

    A thrown exception keeps the state reached so far, as in JavaScript. *)
Definition M (A : Type) := World -> Outcome A * World.

Definition ret {A} (a : A) : M A := fun w => (Ret a, w).

Definition throw {A} (e : Exn) : M A := fun w => (Throw e, w).

Definition bind {A B} (m : M A) (k : A -> M B) : M B :=
  fun w =>
    match m w with
    | (Ret a, w') => k a w'
    | (Throw e, w') => (Throw e, w')
    end.

(** [try { body } catch (e) { handler }] *)
Definition try_catch {A} (body : M A) (handler : Exn -> M A) : M A :=
  fun w =>
    match body w with
    | (Ret a, w') => (Ret a, w')
    | (Throw e, w') => handler e w'
    end.

(** A call to a collaborator that does not touch the process state. *)
Definition call {A} (o : Outcome A) : M A := fun w => (o, w).

Definition get : M NATSConsumer := fun w => (Ret (this w), w).

Definition update (f : NATSConsumer -> NATSConsumer) : M unit :=
  fun w => (Ret tt, set_this (f (this w)) w).

Definition emit (e : Event) : M unit :=
  fun w => (Ret tt, {| this := this w; timers := timers w;
                       next_timer := next_timer w; trace := trace w ++ [e] |}).

End Runtime.

Declare Scope js_scope.
Delimit Scope js_scope with js.
Notation "x <- m ;; k" := (bind m (fun x => k))
  (at level 100, m at next level, k at level 200, right associativity) : js_scope.
Notation "m ;; k" := (bind m (fun _ => k))
  (at level 100, k at level 200, right associativity) : js_scope.
Open Scope js_scope.

(** ** The parts both variants share: logger, parser, message handler,
    statistics timer and shutdown *)

Section Consumer.
Context `{P : Platform}.

(** Modelled from the spec: [src/logger.ts] is not among the sources.  The
    logging collaborator records one line (component, level, first
    argument) and returns normally. *)
Definition logger (component : string) (level : Level) (message : string) : M unit :=
  emit (Logged component level message).

Definition console_log (text : string) : M unit := emit (ConsoleLog text).

Definition console_warn (text : string) : M unit := emit (ConsoleWarn text).

Definition console_error (text : string) : M unit := emit (ConsoleError text).

(** [setInterval(callback, ms)]: arms a fresh timer.  What the callback
    prints depends on the clock and is not modelled. *)
Definition setInterval (ms : JS.JSNumber) : M Timeout :=
  fun w =>
    let t := next_timer w in
    (Ret t, {| this := this w; timers := {[t]} ∪ timers w;
               next_timer := S t; trace := trace w ++ [IntervalSet ms t] |}).

(** [clearInterval(t)]: disarms the timer; nothing happens if it is not
    armed. *)
Definition clearInterval (t : Timeout) : M unit :=
  fun w =>
    (Ret tt, {| this := this w; timers := timers w ∖ {[t]};
                next_timer := next_timer w; trace := trace w ++ [IntervalCleared t] |}).

(** [new Parser()] *)
Definition Parser_new : M Parser :=
  logger "Parser" info "Parser initialized" ;;
  ret {| parser_messageCount := 0 |}.

(** [Parser.processTransaction] ([src/parser.ts] lines 11-22).  The call
    itself is recorded as [SinkCall], so that invocations can be counted. *)
Definition Parser_processTransaction (streamName : string) (value : Json) : M unit :=
  emit (SinkCall streamName value) ;;
  try_catch
    (update (fun o => set_parser {| parser_messageCount := S (parser_messageCount (parser o)) |} o) ;;
     o <- get ;;
     console_log (JS.LF +:+ "[" +:+ streamName +:+ "] Message #"
                  +:+ JS.nat_toString (parser_messageCount (parser o)) +:+ ":") ;;
     text <- call (JSON_stringify value) ;;
     console_log text)
    (fun _ => logger "Parser" error ("Error processing message from " +:+ streamName +:+ ":")).

(** [Parser.getMessageCount] *)
Definition Parser_getMessageCount : M nat :=
  o <- get ;; ret (parser_messageCount (parser o)).

(** [Parser.stop] *)
Definition Parser_stop : M unit :=
  logger "Parser" info "Parser stopping".

(** [new NATSConsumer()] *)
Definition NATSConsumer_new : M unit :=
  p <- Parser_new ;;
  update (fun _ => {| nc := None; messageCount := 0; running := false;
                      parser := p; statsInterval := None |}).

(** [NATSConsumer.handleMessage] (part_001 lines 140-154, part_002 lines
    98-112; the two are the same text). *)
Definition handleMessage (streamName : string) (payload : list byte) : M unit :=
  update (fun o => set_messageCount (S (messageCount o)) o) ;;
  try_catch
    (text <- call (StringCodec_decode payload) ;;
     json <- call (JSON_parse text) ;;
     Parser_processTransaction streamName json)
    (fun _ => logger "NATSConsumer" error "Failed to parse message as JSON:").

(** [NATSConsumer.reportStats]: arms the statistics timer and keeps its
    handle. *)
Definition reportStats (ms : JS.JSNumber) : M unit :=
  t <- setInterval ms ;;
  update (set_statsInterval (Some t)).

(** [nc.drain()] on the connection held by the consumer. *)
Definition drain (c : Connection) : M unit :=
  emit Drained ;;
  update (set_nc (Some (snd (nc_drain c)))) ;;
  call (fst (nc_drain c)).

(** [NATSConsumer.stop] (part_001 lines 171-192, part_002 lines 129-150;
    the two are the same text). *)
Definition stop : M unit :=
  logger "NATSConsumer" info "Stopping consumer" ;;
  update (set_running false) ;;
  o <- get ;;
  match statsInterval o with
  | Some t => clearInterval t
  | None => ret tt
  end ;;
  Parser_stop ;;
  o <- get ;;
  match nc o with
  | Some c => drain c
  | None => ret tt
  end ;;
  logger "NATSConsumer" info "Consumer stopped".

(** [getMessageCount], [getParsedCount], [isRunning] *)
Definition getMessageCount : M nat := o <- get ;; ret (messageCount o).

Definition getParsedCount : M nat := Parser_getMessageCount.

Definition isRunning : M bool := o <- get ;; ret (running o).

(** [for (const x of xs) await f(x)] *)
Fixpoint for_each {A} (f : A -> M unit) (xs : list A) : M unit :=
  match xs with
  | [] => ret tt
  | x :: rest => f x ;; for_each f rest
  end.

(** [xs.map((x, index) => f(x, index))] where the callback may throw. *)
Fixpoint map_indexed {A B} (f : A -> nat -> Outcome B) (index : nat) (xs : list A)
  : Outcome (list B) :=
  match xs with
  | [] => Ret []
  | x :: rest =>
      match f x index with
      | Throw e => Throw e
      | Ret y =>
          match map_indexed f (S index) rest with
          | Throw e => Throw e
          | Ret ys => Ret (y :: ys)
          end
      end
  end.

(** [xs[index].trim()]: a [TypeError] when [xs[index]] is [undefined]. *)
Definition trim_at (xs : list string) (index : nat) : Outcome string :=
  match xs !! index with
  | Some s => Ret (JS.trim s)
  | None => Throw (TypeError "Cannot read properties of undefined (reading 'trim')")
  end.

(** [process.env.X?.split(',') || fallback]: an array is always truthy, so
    the fallback is taken only when the variable is not set. *)
Definition env_list (env : gmap string string) (key : string) (fallback : list string)
  : list string :=
  match env !! key with
  | Some s => JS.split "," s
  | None => fallback
  end.

(** The text of the inline credentials (part_001 line 62, part_002 line
    54). *)
Definition inline_creds (jwt seed : string) : string :=
  "-----BEGIN NATS USER JWT-----" +:+ JS.LF +:+ jwt +:+ JS.LF
  +:+ "------END NATS USER JWT------" +:+ JS.LF +:+ JS.LF
  +:+ "-----BEGIN USER NKEY SEED-----" +:+ JS.LF +:+ seed +:+ JS.LF
  +:+ "------END USER NKEY SEED-----".

End Consumer.

(** ** The core variant: [src/config.ts] lines 1-54 and the consumer of
    part_002 *)

Module Core.

Record StreamConfig := {
  name : string;
  subject : string
}.

(** [NATSConfig]; the field [name] of the source is [clientName] here,
    since [StreamConfig] has a [name] too. *)
Record NATSConfig := {
  serverUrl : JS.str_opt;
  host : string;
  port : JS.JSNumber;
  clientName : string;
  credsFile : JS.str_opt;
  userJwt : JS.str_opt;
  userSeed : JS.str_opt
}.

Record Settings := {
  nats : NATSConfig;
  streams : list StreamConfig;
  logLevel : string;
  statsInterval : JS.JSNumber
}.

(** The arrays [names] and [subjects] of [parseStreamConfig]
    ([src/config.ts] lines 28-29). *)
Definition names_of (env : gmap string string) : list string :=
  env_list env "STREAM_NAMES" ["basic-stream"].

Definition subjects_of (env : gmap string string) : list string :=
  env_list env "STREAM_SUBJECTS" ["basic.pumpfun"].

(** [parseStreamConfig] ([src/config.ts] lines 27-39) *)
Definition parseStreamConfig (env : gmap string string) : Outcome (list StreamConfig) :=
  let names := names_of env in
  let subjects := subjects_of env in
  if negb (Nat.eqb (length names) (length subjects)) then
    Throw (Error "Stream configuration arrays must have the same length")
  else
    map_indexed
      (fun name index =>
         match trim_at subjects index with
         | Ret s => Ret {| name := JS.trim name; subject := s |}
         | Throw e => Throw e
         end)
      0 names.

(** The module-level constant [settings] ([src/config.ts] lines 41-54),
    as a function of [process.env] after [dotenv.config()]. *)
Definition settings (env : gmap string string) : Outcome Settings :=
  let nats := {|
    serverUrl := env !! "NATS_SERVER_URL";
    host := JS.or_default (env !! "NATS_HOST") "localhost";
    port := JS.parseInt (JS.or_default (env !! "NATS_PORT") "4222");
    clientName := JS.or_default (env !! "NATS_NAME") "solana-stream-consumer";
    credsFile := JS.or_else (env !! "NATS_JWT_FILE") (env !! "NATS_CREDS_FILE");
    userJwt := env !! "NATS_USER_JWT";
    userSeed := env !! "NATS_USER_SEED"
  |} in
  match parseStreamConfig env with
  | Throw e => Throw e
  | Ret streams =>
      Ret {| nats := nats;
             streams := streams;
             logLevel := JS.or_default (env !! "LOG_LEVEL") "info";
             statsInterval := JS.parseInt (JS.or_default (env !! "STATS_INTERVAL") "5000") |}
  end.

Section WithPlatform.
Context `{P : Platform}.

(** The message of the error thrown when no credentials are configured
    (part_002 line 57). *)
Definition not_configured : string :=
  "NATS authentication not configured. Provide NATS_CREDS_FILE/NATS_JWT_FILE or NATS_USER_JWT and NATS_USER_SEED.".

(** The authentication block of [connect] (part_002 lines 48-60). *)
Definition configureAuthentication (cfg : NATSConfig) : M Authenticator :=
  if JS.truthy (credsFile cfg) then
    logger "NATSConsumer" info "Using credentials file authentication" ;;
    emit (FileRead (default "" (credsFile cfg))) ;;
    creds <- call (readFileSync (default "" (credsFile cfg))) ;;
    ret (credsAuthenticator creds)
  else if JS.truthy (userJwt cfg) && JS.truthy (userSeed cfg) then
    logger "NATSConsumer" info "Using inline JWT + NKey seed authentication" ;;
    ret (credsAuthenticator
           (JS.TextEncoder_encode
              (inline_creds (default "" (userJwt cfg)) (default "" (userSeed cfg)))))
  else
    logger "NATSConsumer" error not_configured ;;
    throw (Error not_configured).

(** [NATSConsumer.connect] (part_002 lines 38-69) *)
Definition connect (cfg : NATSConfig) : M unit :=
  let url :=
    if JS.truthy (serverUrl cfg) then default "" (serverUrl cfg)
    else "nats://" +:+ host cfg +:+ ":" +:+ JS.number_toString (port cfg) in
  auth <- configureAuthentication cfg ;;
  let opts := {| servers := url; opts_name := clientName cfg;
                 authenticator := Some auth; opts_tls := None |} in
  try_catch
    (emit (Connect opts) ;;
     c <- call (nats_connect opts) ;;
     update (set_nc (Some c)) ;;
     logger "NATSConsumer" info "Connected to NATS")
    (fun e =>
       logger "NATSConsumer" error "Failed to connect to NATS:" ;;
       throw e).

(** The receive loop that [subscribe] starts (part_002 lines 78-89), run on
    the messages the subscription delivers.  The loop is written for any
    handler; the consumer runs it with [handleMessage]. *)
Fixpoint receiveLoop (handler : string -> list byte -> M unit)
    (name : string) (msgs : list Msg) : M unit :=
  match msgs with
  | [] => ret tt
  | msg :: rest =>
      o <- get ;;
      if negb (running o) then ret tt
      else
        try_catch
          (handler name (data msg))
          (fun _ => logger "NATSConsumer" error ("Error handling message from " +:+ name +:+ ":")) ;;
        receiveLoop handler name rest
  end.

(** The synchronous part of [NATSConsumer.subscribe] (part_002 lines
    71-96). *)
Definition subscribe (streamConfig : StreamConfig) : M unit :=
  logger "NATSConsumer" info ("Subscribing to " +:+ subject streamConfig) ;;
  try_catch
    (o <- get ;;
     match nc o with
     | None => throw (TypeError "Cannot read properties of undefined (reading 'subscribe')")
     | Some c =>
         emit (Subscribed (subject streamConfig)) ;;
         call (nc_subscribe c (subject streamConfig)) ;;
         logger "NATSConsumer" info ("Successfully subscribed to " +:+ name streamConfig)
     end)
    (fun e =>
       logger "NATSConsumer" error ("Failed to subscribe to " +:+ name streamConfig +:+ ":") ;;
       throw e).

(** [NATSConsumer.start] (part_002 lines 26-36) *)
Definition start (s : Settings) : M unit :=
  logger "NATSConsumer" info "Starting consumer" ;;
  connect (nats s) ;;
  update (set_running true) ;;
  for_each subscribe (streams s) ;;
  reportStats (statsInterval s).

End WithPlatform.

End Core.

(** ** The JetStream variant: [src/config.ts] lines 55-132 and the consumer
    of part_001 *)

Module JetStream.

Record StreamConfig := {
  name : string;
  subject : string;
  stream : string
}.

Record TlsPaths := {
  cert : JS.str_opt;
  key : JS.str_opt;
  ca : JS.str_opt
}.

(** [NATSConfig]; the field [name] of the source is [clientName] here. *)
Record NATSConfig := {
  host : string;
  port : JS.JSNumber;
  clientName : string;
  jwt : JS.str_opt;
  nkey : JS.str_opt;
  jwtFile : JS.str_opt;
  nkeyFile : JS.str_opt;
  tls : TlsPaths
}.

Record Settings := {
  nats : NATSConfig;
  streams : list StreamConfig;
  logLevel : string;
  statsInterval : JS.JSNumber
}.

(** The arrays [names], [subjects] and [streams] of [parseStreamConfig]
    ([src/config.ts] lines 99-101). *)
Definition names_of (env : gmap string string) : list string :=
  env_list env "STREAM_NAMES" ["pumpfun"; "pumpswap"].

Definition subjects_of (env : gmap string string) : list string :=
  env_list env "STREAM_SUBJECTS" ["parsedtx.pumpfun"; "parsedtx.pumpswap"].

Definition streams_of (env : gmap string string) : list string :=
  env_list env "JETSTREAM_NAMES" ["PARSED_PUMPFUN"; "PARSED_PUMPSWAP"].

(** [parseStreamConfig] ([src/config.ts] lines 98-112) *)
Definition parseStreamConfig (env : gmap string string) : Outcome (list StreamConfig) :=
  let names := names_of env in
  let subjects := subjects_of env in
  let streams := streams_of env in
  if negb (Nat.eqb (length names) (length subjects))
     || negb (Nat.eqb (length names) (length streams)) then
    Throw (Error "Stream configuration arrays must have the same length")
  else
    map_indexed
      (fun name index =>
         match trim_at subjects index with
         | Throw e => Throw e
         | Ret s =>
             match trim_at streams index with
             | Throw e => Throw e
             | Ret j => Ret {| name := JS.trim name; subject := s; stream := j |}
             end
         end)
      0 names.

Section WithPlatform.
Context `{P : Platform}.

(** [loadCredentialFile] ([src/config.ts] lines 88-96) *)
Definition loadCredentialFile (filePath : JS.str_opt) : M JS.str_opt :=
  if negb (JS.truthy filePath) then ret None
  else
    try_catch
      (emit (FileRead (default "" filePath)) ;;
       text <- call (readFileSync_utf8 (default "" filePath)) ;;
       ret (Some (JS.trim text)))
      (fun _ =>
         console_warn ("Failed to load credential file " +:+ default "" filePath +:+ ":") ;;
         ret None).

(** [process.env.X || loadCredentialFile(process.env.X_FILE)] *)
Definition inline_or_file (inline file : JS.str_opt) : M JS.str_opt :=
  if JS.truthy inline then ret inline else loadCredentialFile file.

(** The module-level constant [settings] ([src/config.ts] lines 114-132),
    as a computation over [process.env] after [dotenv.config()]. *)
Definition settings (env : gmap string string) : M Settings :=
  j <- inline_or_file (env !! "NATS_JWT") (env !! "NATS_JWT_FILE") ;;
  k <- inline_or_file (env !! "NATS_NKEY") (env !! "NATS_NKEY_FILE") ;;
  let nats := {|
    host := JS.or_default (env !! "NATS_HOST") "localhost";
    port := JS.parseInt (JS.or_default (env !! "NATS_PORT") "4222");
    clientName := JS.or_default (env !! "NATS_NAME") "solana-stream-consumer";
    jwt := j;
    nkey := k;
    jwtFile := env !! "NATS_JWT_FILE";
    nkeyFile := env !! "NATS_NKEY_FILE";
    tls := {| cert := env !! "NATS_TLS_CERT";
              key := env !! "NATS_TLS_KEY";
              ca := env !! "NATS_TLS_CA" |}
  |} in
  streams <- call (parseStreamConfig env) ;;
  ret {| nats := nats;
         streams := streams;
         logLevel := JS.or_default (env !! "LOG_LEVEL") "info";
         statsInterval := JS.parseInt (JS.or_default (env !! "STATS_INTERVAL") "5000") |}.

(** The authentication block of [connect] (part_001 lines 54-74); [None]
    is the anonymous connection. *)
Definition configureAuthentication (cfg : NATSConfig) : M (option Authenticator) :=
  if JS.truthy (jwtFile cfg) then
    logger "NATSConsumer" info "Using credentials file authentication" ;;
    emit (FileRead (default "" (jwtFile cfg))) ;;
    creds <- call (readFileSync (default "" (jwtFile cfg))) ;;
    ret (Some (credsAuthenticator creds))
  else if JS.truthy (jwt cfg) && JS.truthy (nkey cfg) then
    logger "NATSConsumer" info "Using inline JWT + NKey authentication" ;;
    ret (Some (credsAuthenticator
                 (JS.TextEncoder_encode
                    (inline_creds (default "" (jwt cfg)) (default "" (nkey cfg))))))
  else if JS.truthy (jwt cfg) then
    logger "NATSConsumer" info "Using JWT authentication" ;;
    ret (Some (jwtAuthenticator (default "" (jwt cfg))))
  else if JS.truthy (nkey cfg) then
    logger "NATSConsumer" info "Using NKey authentication" ;;
    ret (Some (nkeyAuthenticator (JS.TextEncoder_encode (default "" (nkey cfg)))))
  else
    logger "NATSConsumer" warn "No authentication configured - using anonymous connection" ;;
    ret None.

(** [path ? readFileSync(path, 'utf-8') : undefined] *)
Definition read_if_set (path : JS.str_opt) : M JS.str_opt :=
  if JS.truthy path then
    emit (FileRead (default "" path)) ;;
    text <- call (readFileSync_utf8 (default "" path)) ;;
    ret (Some text)
  else ret None.

(** The TLS block of [connect] (part_001 lines 76-84). *)
Definition configureTls (paths : TlsPaths) : M (option TlsOptions) :=
  if JS.truthy (cert paths) || JS.truthy (key paths) || JS.truthy (ca paths) then
    logger "NATSConsumer" info "Configuring TLS connection" ;;
    c <- read_if_set (cert paths) ;;
    k <- read_if_set (key paths) ;;
    a <- read_if_set (ca paths) ;;
    ret (Some {| tls_cert := c; tls_key := k; tls_ca := a |})
  else ret None.

(** [NATSConsumer.connect] (part_001 lines 44-94) *)
Definition connect (cfg : NATSConfig) : M unit :=
  let url := "nats://" +:+ host cfg +:+ ":" +:+ JS.number_toString (port cfg) in
  auth <- configureAuthentication cfg ;;
  t <- configureTls (tls cfg) ;;
  let opts := {| servers := url; opts_name := clientName cfg;
                 authenticator := auth; opts_tls := t |} in
  try_catch
    (emit (Connect opts) ;;
     c <- call (nats_connect opts) ;;
     update (set_nc (Some c)) ;;
     logger "NATSConsumer" info "Connected to NATS")
    (fun e =>
       logger "NATSConsumer" error "Failed to connect to NATS:" ;;
       throw e).

(** [msg.ack()] *)
Definition ack (msg : Msg) : M unit := emit (Ack msg).

(** The receive loop that [subscribe] starts (part_001 lines 114-131), run
    on the messages the subscription delivers.  The loop is written for any
    handler; the consumer runs it with [handleMessage]. *)
Fixpoint receiveLoop (handler : string -> list byte -> M unit)
    (name : string) (msgs : list Msg) : M unit :=
  match msgs with
  | [] => ret tt
  | msg :: rest =>
      o <- get ;;
      if negb (running o) then ret tt
      else
        try_catch
          (handler name (data msg) ;;
           ack msg)
          (fun _ =>
             logger "NATSConsumer" error ("Error handling message from " +:+ name +:+ ":") ;;
             ack msg) ;;
        receiveLoop handler name rest
  end.

(** The synchronous part of [NATSConsumer.subscribe] (part_001 lines
    96-138). *)
Definition subscribe (streamConfig : StreamConfig) : M unit :=
  logger "NATSConsumer" info
    ("Subscribing to " +:+ subject streamConfig +:+ " on stream " +:+ stream streamConfig) ;;
  try_catch
    (let opts := {| ackExplicit := true; manualAck := true;
                    bindStream := stream streamConfig;
                    maxDeliver := 1; deliverNew := true |} in
     o <- get ;;
     match nc o with
     | None => throw (TypeError "Cannot read properties of undefined (reading 'subscribe')")
     | Some c =>
         emit (Subscribed (subject streamConfig)) ;;
         call (js_subscribe c (subject streamConfig) opts) ;;
         logger "NATSConsumer" info ("Successfully subscribed to " +:+ name streamConfig)
     end)
    (fun e =>
       logger "NATSConsumer" error ("Failed to subscribe to " +:+ name streamConfig +:+ ":") ;;
       throw e).

(** [NATSConsumer.start] (part_001 lines 32-42) *)
Definition start (s : Settings) : M unit :=
  logger "NATSConsumer" info "Starting consumer" ;;
  connect (nats s) ;;
  update (set_running true) ;;
  for_each subscribe (streams s) ;;
  reportStats (statsInterval s).

End WithPlatform.

End JetStream.

(** ** Observations on traces, and the statements of the specification *)

Section Observations.
Context `{P : Platform}.

(** The messages acknowledged in a trace, in order. *)
Definition acks (tr : list Event) : list Msg :=
  omap (fun e => match e with Ack m => Some m | _ => None end) tr.

(** The sink invocations of a trace: stream name and value, in order. *)
Definition sink_calls (tr : list Event) : list (string * Json) :=
  omap (fun e => match e with SinkCall n v => Some (n, v) | _ => None end) tr.

Definition is_connect (e : Event) : bool :=
  match e with
  | Connect _ => true
  | _ => false
  end.

(** The number of calls to the broker's [connect] in a trace. *)
Definition connect_calls (tr : list Event) : nat :=
  length (List.filter is_connect tr).

(** The line the receive loops log when the handler throws. *)
Definition handler_error_line (name : string) : Event :=
  Logged "NATSConsumer" error ("Error handling message from " +:+ name +:+ ":").

(** The value a payload stands for: it must decode, and the text must
    parse. *)
Definition decoded (payload : list byte) : option Json :=
  match StringCodec_decode payload with
  | Ret text =>
      match JSON_parse text with
      | Ret json => Some json
      | Throw _ => None
      end
  | Throw _ => None
  end.

(** Feeding a sequence of (stream name, payload) pairs to the handler. *)
Definition feed (inputs : list (string * list byte)) : M unit :=
  for_each (fun i => handleMessage (fst i) (snd i)) inputs.

(** The sink invocations the specification expects for a sequence of
    inputs. *)
Definition expected_sink_calls (inputs : list (string * list byte))
  : list (string * Json) :=
  omap (fun i => match decoded (snd i) with
                 | Some v => Some (fst i, v)
                 | None => None
                 end) inputs.

End Observations.

(** Well-formed UTF-8 (the Unicode standard, table 3-7), the reading of
    "decodes as UTF-8" in the specification.  Inside a sequence the next
    byte must lie between [lo] and [hi], and [remaining] more bytes follow
    it. *)
Inductive Utf8State :=
| Lead
| Continuation (remaining : nat) (lo hi : N).

Definition utf8_step (st : Utf8State) (b : byte) : option Utf8State :=
  let n := Byte.to_N b in
  match st with
  | Lead =>
      if (n <=? 127)%N then Some Lead
      else if ((194 <=? n) && (n <=? 223))%N then Some (Continuation 0 128 191)
      else if (n =? 224)%N then Some (Continuation 1 160 191)
      else if (n =? 237)%N then Some (Continuation 1 128 159)
      else if ((225 <=? n) && (n <=? 239))%N then Some (Continuation 1 128 191)
      else if (n =? 240)%N then Some (Continuation 2 144 191)
      else if ((241 <=? n) && (n <=? 243))%N then Some (Continuation 2 128 191)
      else if (n =? 244)%N then Some (Continuation 2 128 143)
      else None
  | Continuation remaining lo hi =>
      if ((lo <=? n) && (n <=? hi))%N then
        match remaining with
        | O => Some Lead
        | S k => Some (Continuation k 128 191)
        end
      else None
  end.

Fixpoint valid_utf8_from (st : Utf8State) (bytes : list byte) : bool :=
  match bytes with
  | [] => match st with Lead => true | Continuation _ _ _ => false end
  | b :: rest =>
      match utf8_step st b with
      | Some st' => valid_utf8_from st' rest
      | None => false
      end
  end.

Definition valid_utf8 (bytes : list byte) : bool := valid_utf8_from Lead bytes.

(** The combined credentials format of section 6 of the specification, line
    by line: the JWT block, a blank line, the seed block. *)
Definition creds_envelope (J K : string) : string :=
  String.concat JS.LF
    [ "-----BEGIN NATS USER JWT-----";
      J;
      "------END NATS USER JWT------";
      "";
      "-----BEGIN USER NKEY SEED-----";
      K;
      "------END USER NKEY SEED-----" ].

(** The credential variants of the specification. *)
Inductive AuthVariant :=
| CredentialsBlob
| SynthesizedBlob
| JwtOnly
| KeyOnly
| Anonymous.

(** The priority order of section 4.2 of the specification, as an ordered
    list of (predicate, variant) pairs; "present" is JavaScript
    truthiness. *)
Definition auth_priority : list ((JetStream.NATSConfig -> bool) * AuthVariant) :=
  [ (fun c => JS.truthy (JetStream.jwtFile c), CredentialsBlob);
    (fun c => JS.truthy (JetStream.jwt c) && JS.truthy (JetStream.nkey c), SynthesizedBlob);
    (fun c => JS.truthy (JetStream.jwt c), JwtOnly);
    (fun c => JS.truthy (JetStream.nkey c), KeyOnly) ].

(** The first variant whose predicate holds; anonymous when none does. *)
Definition first_match (cfg : JetStream.NATSConfig) : AuthVariant :=
  match List.find (fun pv => fst pv cfg) auth_priority with
  | Some (_, v) => v
  | None => Anonymous
  end.

(** ** A concrete platform for examples *)

(** A connection of the NATS client is open until it is drained. *)
Inductive ConnStatus := Open | Closed.

(** [drain] of the NATS client: the first call closes the connection; on a
    closed connection the call is rejected with [CONNECTION_CLOSED]. *)
Definition nats_drain (c : ConnStatus) : Outcome unit * ConnStatus :=
  match c with
  | Open => (Ret tt, Closed)
  | Closed => (Throw (Error "CONNECTION_CLOSED"), Closed)
  end.

(** A stand-in for [JSON.parse] on examples: the texts that start with an
    opening brace parse, to themselves. *)
Definition braces_parse (text : string) : Outcome string :=
  match text with
  | String "{" _ => Ret text
  | _ => Throw (Error "Unexpected token")
  end.

(** One file exists, [user.creds]. *)
Definition one_file (path : string) : Outcome string :=
  if String.eqb path "user.creds" then Ret "CREDS" else Throw (Error "ENOENT").

Definition example_platform : Platform := {|
  readFileSync := fun path =>
    match one_file path with
    | Ret text => Ret (JS.TextEncoder_encode text)
    | Throw e => Throw e
    end;
  readFileSync_utf8 := one_file;
  Json := string;
  JSON_parse := braces_parse;
  JSON_stringify := Ret;
  StringCodec_decode := fun payload => Ret (string_of_list_byte payload);
  Connection := ConnStatus;
  nats_connect := fun _ => Ret Open;
  nc_subscribe := fun _ _ => Ret tt;
  js_subscribe := fun _ _ _ => Ret tt;
  nc_drain := nats_drain
|}.

(** The process before anything has run. *)
Definition fresh_world `{P : Platform} : World := {|
  this := {| nc := None; messageCount := 0; running := false;
             parser := {| parser_messageCount := 0 |}; statsInterval := None |};
  timers := ∅;
  next_timer := 0;
  trace := []
|}.

(** A consumer that has been started: connected with connection [c],
    running, the statistics timer armed. *)
Definition started_with `{P : Platform} (c : Connection) : World := {|
  this := {| nc := Some c; messageCount := 0; running := true;
             parser := {| parser_messageCount := 0 |}; statsInterval := Some 0 |};
  timers := {[0]};
  next_timer := 1;
  trace := []
|}.

Definition started_world : @World example_platform :=
  started_with (P:=example_platform) Open.

(** The example platform with a client whose [drain] may be repeated. *)
Definition forgiving_platform : Platform := {|
  readFileSync := @readFileSync example_platform;
  readFileSync_utf8 := one_file;
  Json := string;
  JSON_parse := braces_parse;
  JSON_stringify := Ret;
  StringCodec_decode := fun payload => Ret (string_of_list_byte payload);
  Connection := ConnStatus;
  nats_connect := fun _ => Ret Open;
  nc_subscribe := fun _ _ => Ret tt;
  js_subscribe := fun _ _ _ => Ret tt;
  nc_drain := fun _ => (Ret tt, Closed)
|}.

(** A handler that throws on the empty payload and returns otherwise. *)
Definition picky_handler `{P : Platform} (streamName : string) (payload : list byte) : M unit :=
  match payload with
  | [] => throw (Error "empty payload")
  | _ => ret tt
  end.

(** ** Inputs of the examples *)

Definition env_three_names : gmap string string := {["STREAM_NAMES" := "a,b,c"]}.

Definition env_two_streams : gmap string string :=
  <["STREAM_NAMES" := "a, b"]>
    (<["STREAM_SUBJECTS" := " x.y ,z"]>
       {["JETSTREAM_NAMES" := "S1,S2"]}).

Definition cfg_empty_jwt : Core.NATSConfig := {|
  Core.serverUrl := None;
  Core.host := "localhost";
  Core.port := JS.Num 4222;
  Core.clientName := "solana-stream-consumer";
  Core.credsFile := None;
  Core.userJwt := Some "";
  Core.userSeed := Some "SEED"
|}.

Definition cfg_inline_core : Core.NATSConfig := {|
  Core.serverUrl := None;
  Core.host := "localhost";
  Core.port := JS.Num 4222;
  Core.clientName := "solana-stream-consumer";
  Core.credsFile := None;
  Core.userJwt := Some "JWT";
  Core.userSeed := Some "SEED"
|}.

Definition no_tls : JetStream.TlsPaths :=
  {| JetStream.cert := None; JetStream.key := None; JetStream.ca := None |}.

Definition cfg_inline : JetStream.NATSConfig := {|
  JetStream.host := "localhost";
  JetStream.port := JS.Num 4222;
  JetStream.clientName := "solana-stream-consumer";
  JetStream.jwt := Some "JWT";
  JetStream.nkey := Some "SEED";
  JetStream.jwtFile := None;
  JetStream.nkeyFile := None;
  JetStream.tls := no_tls
|}.

Definition cfg_empty_jwt_key : JetStream.NATSConfig := {|
  JetStream.host := "localhost";
  JetStream.port := JS.Num 4222;
  JetStream.clientName := "solana-stream-consumer";
  JetStream.jwt := Some "";
  JetStream.nkey := Some "SEED";
  JetStream.jwtFile := None;
  JetStream.nkeyFile := None;
  JetStream.tls := no_tls
|}.

Definition cfg_file_and_inline : JetStream.NATSConfig := {|
  JetStream.host := "localhost";
  JetStream.port := JS.Num 4222;
  JetStream.clientName := "solana-stream-consumer";
  JetStream.jwt := Some "JWT";
  JetStream.nkey := Some "SEED";
  JetStream.jwtFile := Some "user.creds";
  JetStream.nkeyFile := None;
  JetStream.tls := no_tls
|}.

Definition settings_no_auth : Core.Settings := {|
  Core.nats := {|
    Core.serverUrl := None;
    Core.host := "localhost";
    Core.port := JS.Num 4222;
    Core.clientName := "solana-stream-consumer";
    Core.credsFile := None;
    Core.userJwt := Some "JWT";
    Core.userSeed := None
  |};
  Core.streams := [ {| Core.name := "basic-stream"; Core.subject := "basic.pumpfun" |} ];
  Core.logLevel := "info";
  Core.statsInterval := JS.Num 5000
|}.

Definition two_msgs : list Msg :=
  [ {| data := []; seq := 1 |}; {| data := list_byte_of_string "{}"; seq := 2 |} ].

(** The bytes [7b 22 61 22 3a 22 ff 22 7d]: an object in braces with the byte
    [ff], which occurs in no well-formed UTF-8 text, inside a string. *)
Definition ill_formed_payload : list byte :=
  [x7b; x22; x61; x22; x3a; x22; xff; x22; x7d].

(** The scenario of section 8 of the specification: a payload that parses,
    one that does not, one that parses. *)
Definition three_payloads : list (string * list byte) :=
  [ ("pumpfun", list_byte_of_string "{}");
    ("pumpfun", list_byte_of_string "not-json");
    ("pumpfun", list_byte_of_string "{ }") ].

From Stdlib Require Import DecimalNat.

(** ** The entry point: [src/index.ts] *)

Section Index.
Context `{P : Platform}.

(** [shutdown] ([src/index.ts] lines 17-26).  [process.exit(code)] ends the
    process, so the exit code is the result. *)
Definition shutdown (signal : string) : M nat :=
  logger "Main" info ("Received " +:+ signal +:+ ", shutting down gracefully...") ;;
  try_catch
    (stop ;; ret 0)
    (fun _ => logger "Main" error "Error during shutdown:" ;; ret 1).

(** The [uncaughtException] handler ([src/index.ts] lines 33-36). *)
Definition on_uncaughtException : M nat :=
  logger "Main" error "Uncaught Exception:" ;;
  shutdown "uncaughtException".

(** The [unhandledRejection] handler ([src/index.ts] lines 38-41). *)
Definition on_unhandledRejection : M nat :=
  logger "Main" error "Unhandled Rejection at:" ;;
  shutdown "unhandledRejection".

(** [main] ([src/index.ts] lines 7-54), for the [start] of either consumer.
    [package_version] is the outcome of [require('../package.json').version],
    which is evaluated for the first log line, before the [try] block: the
    value, [None] when the file has no such field, or what the [require] or
    the property read throws.  Registering the signal handlers and
    [process.stdin.resume()] are calls into Node that return and leave no
    trace here.  The result is the exit code when the process exits, and
    [None] when it stays alive waiting for messages and signals. *)
Definition main (package_version : Outcome (option Json)) (start : M unit)
  : M (option nat) :=
  call package_version ;;
  logger "Main" info "Starting Solana Stream Consumer" ;;
  NATSConsumer_new ;;
  try_catch
    (start ;;
     logger "Main" info "Consumer started successfully" ;;
     ret None)
    (fun _ =>
       logger "Main" error "Failed to start consumer:" ;;
       ret (Some 1)).

(** The script run as the entry point ([src/index.ts] lines 57-62):
    [main().catch(...)]. *)
Definition entry_point (package_version : Outcome (option Json)) (start : M unit)
  : M (option nat) :=
  try_catch
    (main package_version start)
    (fun _ => console_error "Fatal error:" ;; ret (Some 1)).

(** The subjects subscribed to in a trace, in order. *)
Definition subscriptions (tr : list Event) : list string :=
  omap (fun e => match e with Subscribed s => Some s | _ => None end) tr.

(** The options of the connection attempts of a trace, in order. *)
Definition connect_attempts (tr : list Event) : list ConnectionOptions :=
  omap (fun e => match e with Connect o => Some o | _ => None end) tr.

(** The files read in a trace, in order. *)
Definition file_reads (tr : list Event) : list string :=
  omap (fun e => match e with FileRead p => Some p | _ => None end) tr.

(** The world with more events at the end of its trace. *)
Definition with_events (evs : list Event) (w : World) : World :=
  {| this := this w; timers := timers w; next_timer := next_timer w;
     trace := trace w ++ evs |}.

(** Events that are neither a connection attempt nor a subscription. *)
Definition local_events (evs : list Event) : Prop :=
  connect_attempts evs = [] /\ subscriptions evs = [].

(** What [connect] leaves behind: more events, none of them a subscription,
    and possibly a new connection. *)
Definition connect_outcome (res : Outcome unit) (w w' : World) : Prop :=
  exists evs n,
    w' = with_events evs (set_this (set_nc n (this w)) w) /\
    subscriptions evs = [] /\
    match res with
    | Ret _ => is_Some n /\ length (connect_attempts evs) = 1
    | Throw _ => n = nc (this w) /\ length (connect_attempts evs) <= 1
    end.

(** The start sequence over any [connect] and [subscribe]. *)
Definition start_sequence {A} (connect : M unit) (subscribe : A -> M unit)
    (streams : list A) (ms : JS.JSNumber) : M unit :=
  logger "NATSConsumer" info "Starting consumer" ;;
  connect ;;
  update (set_running true) ;;
  for_each subscribe streams ;;
  reportStats ms.

(** The postcondition of [start], the same for both variants. *)
Definition started {A} (subject : A -> string) (streams : list A)
    (res : Outcome unit) (w w' : World) : Prop :=
  length (connect_attempts (trace w')) <= S (length (connect_attempts (trace w))) /\
  messageCount (this w') = messageCount (this w) /\
  parser (this w') = parser (this w) /\
  match res with
  | Ret _ =>
      running (this w') = true /\
      is_Some (nc (this w')) /\
      length (connect_attempts (trace w')) = S (length (connect_attempts (trace w))) /\
      subscriptions (trace w') = (subscriptions (trace w) ++ (subject <$> streams))%list /\
      statsInterval (this w') = Some (next_timer w) /\
      timers w' = {[next_timer w]} ∪ timers w
  | Throw _ =>
      statsInterval (this w') = statsInterval (this w) /\
      timers w' = timers w /\
      exists k, k <= length streams /\
        subscriptions (trace w') = (subscriptions (trace w) ++ (subject <$> take k streams))%list /\
        (nc (this w') = nc (this w) /\ running (this w') = running (this w) /\ k = 0
         \/ is_Some (nc (this w')) /\ running (this w') = true)
  end.

End Index.

(** The payloads of a list of messages, tagged with the stream name. *)
Definition tagged (name : string) (msgs : list Msg) : list (string * list byte) :=
  (fun m => (name, data m)) <$> msgs.

(** The number of commas of a text. *)
Fixpoint commas (s : string) : nat :=
  match s with
  | "" => 0
  | String c r => if Ascii.eqb c "," then S (commas r) else commas r
  end.

(** A text neither starts nor ends with white space. *)
Definition trimmed (s : string) : Prop :=
  JS.trimStart s = s /\ JS.trimEnd s = s.

(** The example platform with a chosen broker and printer: [conn] answers
    [connect], [sub] answers a subscription to a subject, [fmt] is
    [JSON.stringify]. *)
Definition platform_with (conn : ConnectionOptions -> Outcome ConnStatus)
    (sub : string -> Outcome unit) (fmt : string -> Outcome string) : Platform := {|
  readFileSync := @readFileSync example_platform;
  readFileSync_utf8 := one_file;
  Json := string;
  JSON_parse := braces_parse;
  JSON_stringify := fmt;
  StringCodec_decode := fun payload => Ret (string_of_list_byte payload);
  Connection := ConnStatus;
  nats_connect := conn;
  nc_subscribe := fun _ s => sub s;
  js_subscribe := fun _ s _ => sub s;
  nc_drain := nats_drain
|}.

(** A broker that cannot be reached. *)
Definition offline_platform : Platform :=
  platform_with (fun _ => Throw (Error "CONNECTION_REFUSED")) (fun _ => Ret tt) Ret.

(** A broker that refuses the subject [denied]. *)
Definition denying_platform : Platform :=
  platform_with (fun _ => Ret Open)
    (fun s => if String.eqb s "denied" then Throw (Error "PERMISSIONS_VIOLATION") else Ret tt)
    Ret.

(** A printer that fails on every value. *)
Definition unprintable_platform : Platform :=
  platform_with (fun _ => Ret Open) (fun _ => Ret tt)
    (fun _ => Throw (TypeError "Converting circular structure to JSON")).

Definition settings_inline (streams : list Core.StreamConfig) : Core.Settings := {|
  Core.nats := cfg_inline_core;
  Core.streams := streams;
  Core.logLevel := "info";
  Core.statsInterval := JS.Num 5000
|}.

Definition jet_settings_inline (streams : list JetStream.StreamConfig) : JetStream.Settings := {|
  JetStream.nats := cfg_inline;
  JetStream.streams := streams;
  JetStream.logLevel := "info";
  JetStream.statsInterval := JS.Num 5000
|}.

Definition two_targets : list Core.StreamConfig :=
  [ {| Core.name := "first"; Core.subject := "allowed" |};
    {| Core.name := "second"; Core.subject := "denied" |} ].

Definition env_inline_and_file : gmap string string :=
  <["NATS_JWT" := "JWT"]> (<["NATS_NKEY" := "SEED"]> {["NATS_NKEY_FILE" := "user.creds"]}).

Definition env_jwt_file : gmap string string := {["NATS_JWT_FILE" := "user.creds"]}.

Definition env_missing_file : gmap string string := {["NATS_JWT_FILE" := "missing.creds"]}.

Definition cfg_missing_file : JetStream.NATSConfig := {|
  JetStream.host := "localhost";
  JetStream.port := JS.Num 4222;
  JetStream.clientName := "solana-stream-consumer";
  JetStream.jwt := None;
  JetStream.nkey := None;
  JetStream.jwtFile := Some "missing.creds";
  JetStream.nkeyFile := None;
  JetStream.tls := no_tls
|}.

Definition cfg_missing_cert : JetStream.NATSConfig := {|
  JetStream.host := "localhost";
  JetStream.port := JS.Num 4222;
  JetStream.clientName := "solana-stream-consumer";
  JetStream.jwt := Some "JWT";
  JetStream.nkey := Some "SEED";
  JetStream.jwtFile := None;
  JetStream.nkeyFile := None;
  JetStream.tls := {| JetStream.cert := Some "missing.pem"; JetStream.key := None;
                      JetStream.ca := None |}
|}.

Definition env_interval : gmap string string :=
  <["STATS_INTERVAL" := "250"]> {["NATS_PORT" := "4333"]}.

(** * Properties *)

Open Scope list_scope.

(** ** The JavaScript primitives on examples *)

Example split_two : JS.split "," "a, b" = ["a"; " b"].
Proof. reflexivity. Qed.

Example split_empty : JS.split "," "" = [""].
Proof. reflexivity. Qed.

Example split_trailing : JS.split "," "a," = ["a"; ""].
Proof. reflexivity. Qed.

Example trim_both : JS.trim "  a b  " = "a b".
Proof. reflexivity. Qed.

Example parseInt_default : JS.parseInt "5000" = JS.Num 5000.
Proof. reflexivity. Qed.

Example parseInt_negative : JS.parseInt " -12px" = JS.Num (-12).
Proof. reflexivity. Qed.

Example parseInt_hex : JS.parseInt "0x1F" = JS.Num 31.
Proof. reflexivity. Qed.

Example parseInt_text : JS.parseInt "soon" = JS.NaN.
Proof. reflexivity. Qed.

Example parseInt_rounds : JS.parseInt "9007199254740993" = JS.Num 9007199254740992.
Proof. vm_compute. reflexivity. Qed.

Example parseInt_overflows : JS.parseInt ("-1" +:+ JS.zeros 309) = JS.Infinity true.
Proof. vm_compute. reflexivity. Qed.

Example toString_port : JS.number_toString (JS.Num 4222) = "4222".
Proof. reflexivity. Qed.

Example toString_negative : JS.number_toString (JS.Num (-250)) = "-250".
Proof. reflexivity. Qed.

Example toString_padded :
  JS.number_toString (JS.to_Number (2 ^ 60)) = "1152921504606847000".
Proof. vm_compute. reflexivity. Qed.

Example toString_exponent : JS.number_toString (JS.to_Number (10 ^ 21)) = "1e+21".
Proof. vm_compute. reflexivity. Qed.

Example toString_exponent_digits :
  JS.number_toString (JS.to_Number 123456789012345678901234567890)
  = "1.2345678901234568e+29".
Proof. vm_compute. reflexivity. Qed.

(** ** Configuration loading *)

Lemma map_indexed_spec {A B} (f : A -> nat -> Outcome B) (xs : list A) (i0 : nat) :
  match map_indexed f i0 xs with
  | Ret ys =>
      length ys = length xs /\
      forall i x, xs !! i = Some x -> exists y, f x (i0 + i) = Ret y /\ ys !! i = Some y
  | Throw e => exists i x, xs !! i = Some x /\ f x (i0 + i) = Throw e
  end.
Proof.
  revert i0. induction xs as [|x xs IH]; intros i0; simpl.
  - split; [reflexivity|]. intros i x Hx. discriminate.
  - destruct (f x i0) as [y|e] eqn:Hf.
    + specialize (IH (S i0)). destruct (map_indexed f (S i0) xs) as [ys|e].
      * destruct IH as [Hlen Hall]. split; [simpl; congruence|].
        intros [|i] x' Hx'; simpl in *.
        -- inversion Hx'; subst. exists y. rewrite Nat.add_0_r. auto.
        -- destruct (Hall i x' Hx') as (y' & Hy & Hl).
           exists y'. rewrite <- Nat.add_succ_comm. auto.
      * destruct IH as (i & x' & Hx' & Hthrow).
        exists (S i), x'. rewrite <- Nat.add_succ_comm. auto.
    + exists 0, x. rewrite Nat.add_0_r. auto.
Qed.

Lemma trim_at_lookup (xs : list string) (i : nat) (s : string) :
  xs !! i = Some s -> trim_at xs i = Ret (JS.trim s).
Proof. intros H. unfold trim_at. rewrite H. reflexivity. Qed.

Lemma trim_at_in_range (xs : list string) (i : nat) :
  i < length xs -> exists s, xs !! i = Some s /\ trim_at xs i = Ret (JS.trim s).
Proof.
  intros H. destruct (lookup_lt_is_Some_2 xs i H) as [s Hs].
  exists s. split; [assumption|]. apply trim_at_lookup, Hs.
Qed.

Lemma Core_parseStreamConfig_equal (env : gmap string string) :
  length (Core.names_of env) = length (Core.subjects_of env) ->
  exists l, Core.parseStreamConfig env = Ret l /\
    length l = length (Core.names_of env) /\
    forall i n sub,
      Core.names_of env !! i = Some n -> Core.subjects_of env !! i = Some sub ->
      l !! i = Some {| Core.name := JS.trim n; Core.subject := JS.trim sub |}.
Proof.
  intros Hlen. unfold Core.parseStreamConfig. rewrite Hlen, Nat.eqb_refl. simpl.
  match goal with |- context [map_indexed ?f 0 ?xs] =>
    pose proof (map_indexed_spec f xs 0) as Hspec;
    destruct (map_indexed f 0 xs) as [l|e] end.
  - destruct Hspec as [Hl Hall]. exists l. split; [reflexivity|]. split; [congruence|].
    intros i n sub Hn Hs. destruct (Hall i n Hn) as (y & Hy & Hlook).
    simpl in Hy. rewrite (trim_at_lookup _ _ _ Hs) in Hy. inversion Hy; subst. exact Hlook.
  - destruct Hspec as (i & n & Hn & Hthrow). simpl in Hthrow.
    apply lookup_lt_Some in Hn. rewrite Hlen in Hn.
    destruct (trim_at_in_range _ _ Hn) as (s & _ & Ht). rewrite Ht in Hthrow. discriminate.
Qed.

Lemma JetStream_parseStreamConfig_equal (env : gmap string string) :
  length (JetStream.names_of env) = length (JetStream.subjects_of env) ->
  length (JetStream.names_of env) = length (JetStream.streams_of env) ->
  exists l, JetStream.parseStreamConfig env = Ret l /\
    length l = length (JetStream.names_of env) /\
    forall i n sub j,
      JetStream.names_of env !! i = Some n ->
      JetStream.subjects_of env !! i = Some sub ->
      JetStream.streams_of env !! i = Some j ->
      l !! i = Some {| JetStream.name := JS.trim n; JetStream.subject := JS.trim sub;
                       JetStream.stream := JS.trim j |}.
Proof.
  intros Hlen1 Hlen2. unfold JetStream.parseStreamConfig.
  rewrite <- Hlen2, <- Hlen1, Nat.eqb_refl. simpl.
  match goal with |- context [map_indexed ?f 0 ?xs] =>
    pose proof (map_indexed_spec f xs 0) as Hspec;
    destruct (map_indexed f 0 xs) as [l|e] end.
  - destruct Hspec as [Hl Hall]. exists l. split; [reflexivity|]. split; [assumption|].
    intros i n sub j Hn Hs Hj. destruct (Hall i n Hn) as (y & Hy & Hlook).
    simpl in Hy. rewrite (trim_at_lookup _ _ _ Hs), (trim_at_lookup _ _ _ Hj) in Hy.
    inversion Hy; subst. exact Hlook.
  - destruct Hspec as (i & n & Hn & Hthrow). simpl in Hthrow.
    apply lookup_lt_Some in Hn.
    assert (Hn2 := Hn). rewrite Hlen1 in Hn. rewrite Hlen2 in Hn2.
    destruct (trim_at_in_range _ _ Hn) as (s & _ & Ht). rewrite Ht in Hthrow.
    destruct (trim_at_in_range _ _ Hn2) as (s2 & _ & Ht2). rewrite Ht2 in Hthrow.
    discriminate.
Qed.

Section ConfigurationLoader.
Context `{P : Platform}.

Lemma loadCredentialFile_returns (filePath : JS.str_opt) (w : World) :
  exists v w', JetStream.loadCredentialFile filePath w = (Ret v, w').
Proof.
  unfold JetStream.loadCredentialFile.
  destruct (JS.truthy filePath); simpl; [|eauto].
  unfold try_catch, bind, emit, call, ret, console_warn; simpl.
  destruct (readFileSync_utf8 (default "" filePath)); simpl; eauto.
Qed.

Lemma inline_or_file_returns (inline file : JS.str_opt) (w : World) :
  exists v w', JetStream.inline_or_file inline file w = (Ret v, w').
Proof.
  unfold JetStream.inline_or_file.
  destruct (JS.truthy inline); [unfold ret; eauto|apply loadCredentialFile_returns].
Qed.

(** The JetStream loader reads the credentials first and then fails or
    succeeds as [parseStreamConfig] does. *)
Lemma JetStream_settings_result (env : gmap string string) (w : World) :
  match JetStream.parseStreamConfig env with
  | Throw e => fst (JetStream.settings env w) = Throw e
  | Ret l =>
      exists s, fst (JetStream.settings env w) = Ret s /\
        JetStream.streams s = l /\
        JetStream.statsInterval s
        = JS.parseInt (JS.or_default (env !! "STATS_INTERVAL") "5000")
  end.
Proof.
  unfold JetStream.settings, bind.
  destruct (inline_or_file_returns (env !! "NATS_JWT") (env !! "NATS_JWT_FILE") w)
    as (j & w1 & ->).
  destruct (inline_or_file_returns (env !! "NATS_NKEY") (env !! "NATS_NKEY_FILE") w1)
    as (k & w2 & ->).
  unfold call, ret. destruct (JetStream.parseStreamConfig env); simpl; eauto.
Qed.

Lemma Core_parseStreamConfig_mismatch (env : gmap string string) :
  length (Core.names_of env) <> length (Core.subjects_of env) ->
  Core.parseStreamConfig env
  = Throw (Error "Stream configuration arrays must have the same length").
Proof.
  intros H. unfold Core.parseStreamConfig.
  apply Nat.eqb_neq in H. rewrite H. reflexivity.
Qed.

Lemma JetStream_parseStreamConfig_mismatch (env : gmap string string) :
  ~ (length (JetStream.names_of env) = length (JetStream.subjects_of env) /\
     length (JetStream.subjects_of env) = length (JetStream.streams_of env)) ->
  JetStream.parseStreamConfig env
  = Throw (Error "Stream configuration arrays must have the same length").
Proof.
  intros H. unfold JetStream.parseStreamConfig.
  destruct (Nat.eqb_spec (length (JetStream.names_of env))
                         (length (JetStream.subjects_of env))) as [E1|E1];
    [|reflexivity].
  destruct (Nat.eqb_spec (length (JetStream.names_of env))
                         (length (JetStream.streams_of env))) as [E2|E2];
    [|reflexivity].
  exfalso. apply H. split; congruence.
Qed.

(** C4: when the comma-separated lists of stream names, subjects and (in
    the JetStream variant) broker stream ids do not all have the same
    length, loading the configuration throws the mismatched-lengths error;
    the result is the exception, so there is no Settings value, partial or
    otherwise. *)
Theorem mismatched_lengths_fail (env : gmap string string) :
  (length (Core.names_of env) <> length (Core.subjects_of env) ->
   Core.settings env
   = Throw (Error "Stream configuration arrays must have the same length"))
  /\
  (~ (length (JetStream.names_of env) = length (JetStream.subjects_of env) /\
      length (JetStream.subjects_of env) = length (JetStream.streams_of env)) ->
   forall w : World,
     fst (JetStream.settings env w)
     = Throw (Error "Stream configuration arrays must have the same length")).
Proof.
  split.
  - intros H. unfold Core.settings.
    rewrite (Core_parseStreamConfig_mismatch env H). reflexivity.
  - intros H w. pose proof (JetStream_settings_result env w) as R.
    rewrite (JetStream_parseStreamConfig_mismatch env H) in R. exact R.
Qed.

(** C7: when the lists all have the same length N, loading succeeds and
    yields exactly N stream targets; the i-th target pairs the trimmed i-th
    name with the trimmed i-th subject (and, in the JetStream variant, the
    trimmed i-th stream id). *)
Theorem equal_lengths_targets (env : gmap string string) :
  (length (Core.names_of env) = length (Core.subjects_of env) ->
   exists s, Core.settings env = Ret s /\
     length (Core.streams s) = length (Core.names_of env) /\
     forall i n sub,
       Core.names_of env !! i = Some n ->
       Core.subjects_of env !! i = Some sub ->
       Core.streams s !! i
       = Some {| Core.name := JS.trim n; Core.subject := JS.trim sub |})
  /\
  (length (JetStream.names_of env) = length (JetStream.subjects_of env) ->
   length (JetStream.subjects_of env) = length (JetStream.streams_of env) ->
   forall w : World,
   exists s, fst (JetStream.settings env w) = Ret s /\
     length (JetStream.streams s) = length (JetStream.names_of env) /\
     forall i n sub j,
       JetStream.names_of env !! i = Some n ->
       JetStream.subjects_of env !! i = Some sub ->
       JetStream.streams_of env !! i = Some j ->
       JetStream.streams s !! i
       = Some {| JetStream.name := JS.trim n; JetStream.subject := JS.trim sub;
                 JetStream.stream := JS.trim j |}).
Proof.
  split.
  - intros H. destruct (Core_parseStreamConfig_equal env H) as (l & Hp & Hlen & Hall).
    unfold Core.settings. rewrite Hp. eexists. split; [reflexivity|]. simpl. auto.
  - intros H1 H2 w.
    assert (H3 : length (JetStream.names_of env) = length (JetStream.streams_of env))
      by congruence.
    destruct (JetStream_parseStreamConfig_equal env H1 H3) as (l & Hp & Hlen & Hall).
    pose proof (JetStream_settings_result env w) as R. rewrite Hp in R.
    destruct R as (s & Hs & Hl & _). exists s. subst l. auto.
Qed.

(** C9, as the code has it: the stats interval of a loaded Settings value is
    [parseInt(STATS_INTERVAL || '5000')]; it is 5000, hence greater than 0,
    when STATS_INTERVAL is absent or empty, and otherwise whatever
    [parseInt] makes of the text. *)
Theorem stats_interval_from_env (env : gmap string string) :
  (forall s, Core.settings env = Ret s ->
     Core.statsInterval s
     = JS.parseInt (JS.or_default (env !! "STATS_INTERVAL") "5000") /\
     (JS.truthy (env !! "STATS_INTERVAL") = false ->
      exists z, Core.statsInterval s = JS.Num z /\ (0 < z)%Z))
  /\
  (forall (w : World) s, fst (JetStream.settings env w) = Ret s ->
     JetStream.statsInterval s
     = JS.parseInt (JS.or_default (env !! "STATS_INTERVAL") "5000") /\
     (JS.truthy (env !! "STATS_INTERVAL") = false ->
      exists z, JetStream.statsInterval s = JS.Num z /\ (0 < z)%Z)).
Proof.
  assert (Hdefault : JS.truthy (env !! "STATS_INTERVAL") = false ->
            JS.parseInt (JS.or_default (env !! "STATS_INTERVAL") "5000") = JS.Num 5000).
  { destruct (env !! "STATS_INTERVAL") as [[|c r]|]; simpl; intros H;
      try discriminate; reflexivity. }
  split.
  - intros s Hs. unfold Core.settings in Hs.
    destruct (Core.parseStreamConfig env); [|discriminate].
    inversion Hs; subst; simpl. split; [reflexivity|].
    intros H. exists 5000%Z. split; [apply Hdefault, H|lia].
  - intros w s Hs. pose proof (JetStream_settings_result env w) as R.
    destruct (JetStream.parseStreamConfig env).
    + destruct R as (s' & Hs' & _ & Hi). rewrite Hs in Hs'. inversion Hs'; subst s'.
      split; [exact Hi|]. intros H. exists 5000%Z. rewrite Hi. split; [apply Hdefault, H|lia].
    + rewrite Hs in R. discriminate.
Qed.

End ConfigurationLoader.

(** C9, counterexample: with [STATS_INTERVAL=0] the loader produces a
    Settings value whose stats interval is 0. *)
Lemma stats_interval_zero_accepted :
  ~ (forall (env : gmap string string) s,
       Core.settings env = Ret s ->
       exists z, Core.statsInterval s = JS.Num z /\ (0 < z)%Z).
Proof.
  intros H.
  edestruct (H {["STATS_INTERVAL" := "0"]}) as (z & Hz & Hpos);
    [vm_compute; reflexivity|].
  vm_compute in Hz. inversion Hz; subst. lia.
Qed.

Example stats_interval_negative :
  exists s, Core.settings {["STATS_INTERVAL" := "-250"]} = Ret s /\
            Core.statsInterval s = JS.Num (-250).
Proof. eexists. split; [vm_compute; reflexivity|reflexivity]. Qed.

Example stats_interval_not_a_number :
  exists s, Core.settings {["STATS_INTERVAL" := "soon"]} = Ret s /\
            Core.statsInterval s = JS.NaN.
Proof. eexists. split; [vm_compute; reflexivity|reflexivity]. Qed.

Lemma mismatched_lengths_fail_witness :
  Core.settings env_three_names
  = Throw (Error "Stream configuration arrays must have the same length")
  /\ fst (JetStream.settings (P:=example_platform) env_three_names fresh_world)
     = Throw (Error "Stream configuration arrays must have the same length").
Proof.
  destruct (mismatched_lengths_fail (P:=example_platform) env_three_names) as [HC HJ].
  split.
  - apply HC. vm_compute. lia.
  - apply HJ. vm_compute. lia.
Defined.

(** ** Authentication *)

Lemma inline_creds_envelope (J K : string) : inline_creds J K = creds_envelope J K.
Proof. reflexivity. Qed.

Lemma truthy_Some (s : string) : s <> "" -> JS.truthy (Some s) = true.
Proof. destruct s; [congruence|reflexivity]. Qed.

Section Authentication.
Context `{P : Platform}.

Lemma connect_calls_app (tr1 tr2 : list Event) :
  connect_calls (tr1 ++ tr2) = connect_calls tr1 + connect_calls tr2.
Proof. unfold connect_calls. rewrite List.filter_app, length_app. reflexivity. Qed.

(** C1, as the code has it: for non-empty inline JWT [J] and seed [K], with
    no credentials file configured, both variants hand the client a
    credentials authenticator over the bytes of the combined envelope
    around [J] and [K]. *)
Theorem inline_credentials_envelope (J K : string) :
  J <> "" -> K <> "" ->
  (forall (cfg : JetStream.NATSConfig) (w : World),
     JS.truthy (JetStream.jwtFile cfg) = false ->
     JetStream.jwt cfg = Some J -> JetStream.nkey cfg = Some K ->
     fst (JetStream.configureAuthentication cfg w)
     = Ret (Some (credsAuthenticator (JS.TextEncoder_encode (creds_envelope J K)))))
  /\
  (forall (cfg : Core.NATSConfig) (w : World),
     JS.truthy (Core.credsFile cfg) = false ->
     Core.userJwt cfg = Some J -> Core.userSeed cfg = Some K ->
     fst (Core.configureAuthentication cfg w)
     = Ret (credsAuthenticator (JS.TextEncoder_encode (creds_envelope J K)))).
Proof.
  intros HJ HK. split; intros cfg w Hfile Hjwt Hkey.
  - unfold JetStream.configureAuthentication.
    rewrite Hfile, Hjwt, Hkey, (truthy_Some J HJ), (truthy_Some K HK).
    cbn [andb fst bind logger emit ret default]. rewrite inline_creds_envelope. reflexivity.
  - unfold Core.configureAuthentication.
    rewrite Hfile, Hjwt, Hkey, (truthy_Some J HJ), (truthy_Some K HK).
    cbn [andb fst bind logger emit ret default]. rewrite inline_creds_envelope. reflexivity.
Qed.

(** C2: the authentication block of the JetStream [connect] takes the
    branch of the first matching entry of the priority list, and no other:
    a credentials file gives the credentials authenticator over the bytes of
    that file (the read error is thrown when the file cannot be read); else
    inline JWT and key give the authenticator over the synthesized blob;
    else a JWT alone the JWT authenticator; else a key alone the NKey
    authenticator; else nothing is set, the connection is anonymous and a
    warning is logged.  The consumer object is not touched. *)
Theorem authentication_priority (cfg : JetStream.NATSConfig) (w : World) :
  let r := JetStream.configureAuthentication cfg w in
  let J := default "" (JetStream.jwt cfg) in
  let K := default "" (JetStream.nkey cfg) in
  let path := default "" (JetStream.jwtFile cfg) in
  this (snd r) = this w /\
  match first_match cfg with
  | CredentialsBlob =>
      trace (snd r)
      = trace w ++ [Logged "NATSConsumer" info "Using credentials file authentication";
                    FileRead path] /\
      fst r = match readFileSync path with
              | Ret creds => Ret (Some (credsAuthenticator creds))
              | Throw e => Throw e
              end
  | SynthesizedBlob =>
      trace (snd r)
      = trace w ++ [Logged "NATSConsumer" info "Using inline JWT + NKey authentication"] /\
      fst r = Ret (Some (credsAuthenticator (JS.TextEncoder_encode (creds_envelope J K))))
  | JwtOnly =>
      trace (snd r) = trace w ++ [Logged "NATSConsumer" info "Using JWT authentication"] /\
      fst r = Ret (Some (jwtAuthenticator J))
  | KeyOnly =>
      trace (snd r) = trace w ++ [Logged "NATSConsumer" info "Using NKey authentication"] /\
      fst r = Ret (Some (nkeyAuthenticator (JS.TextEncoder_encode K)))
  | Anonymous =>
      trace (snd r)
      = trace w ++ [Logged "NATSConsumer" warn
                      "No authentication configured - using anonymous connection"] /\
      fst r = Ret None
  end.
Proof.
  unfold first_match, auth_priority, JetStream.configureAuthentication. simpl.
  destruct (JS.truthy (JetStream.jwtFile cfg)); simpl.
  - unfold bind, logger, emit, call, ret; simpl.
    destruct (readFileSync (default "" (JetStream.jwtFile cfg))); simpl;
      rewrite <- app_assoc; auto.
  - destruct (JS.truthy (JetStream.jwt cfg)), (JS.truthy (JetStream.nkey cfg)); simpl;
      auto.
Qed.

(** C8: under the strict policy of the core variant, when neither a
    credentials file nor the pair of inline JWT and seed is configured,
    [start] throws the not-configured error; the broker's [connect] is not
    called and the consumer object is left as it was (not running, no
    connection). *)
Theorem strict_start_refuses (s : Core.Settings) (w : World) :
  JS.truthy (Core.credsFile (Core.nats s)) = false ->
  JS.truthy (Core.userJwt (Core.nats s)) && JS.truthy (Core.userSeed (Core.nats s)) = false ->
  let r := Core.start s w in
  fst r = Throw (Error "NATS authentication not configured. Provide NATS_CREDS_FILE/NATS_JWT_FILE or NATS_USER_JWT and NATS_USER_SEED.") /\
  connect_calls (trace (snd r)) = connect_calls (trace w) /\
  this (snd r) = this w.
Proof.
  intros Hfile Hpair.
  unfold Core.start, Core.connect, Core.configureAuthentication.
  rewrite Hfile, Hpair. simpl.
  split; [reflexivity|]. split; [|reflexivity].
  rewrite !connect_calls_app. unfold connect_calls. simpl. lia.
Qed.

End Authentication.

(** C1, counterexample: an inline JWT that is the empty string counts as
    absent; the core variant then throws instead of synthesizing the blob. *)
Lemma empty_inline_jwt_not_synthesized :
  ~ (forall (J K : string) (cfg : Core.NATSConfig) (w : @World example_platform),
       JS.truthy (Core.credsFile cfg) = false ->
       Core.userJwt cfg = Some J -> Core.userSeed cfg = Some K ->
       fst (Core.configureAuthentication cfg w)
       = Ret (credsAuthenticator (JS.TextEncoder_encode (creds_envelope J K)))).
Proof.
  intros H.
  specialize (H "" "SEED" cfg_empty_jwt fresh_world eq_refl eq_refl eq_refl).
  vm_compute in H. discriminate H.
Qed.

Example empty_inline_jwt_from_env :
  exists s, Core.settings {["NATS_USER_JWT" := ""; "NATS_USER_SEED" := "SEED"]}%string = Ret s
            /\ Core.nats s = cfg_empty_jwt.
Proof. eexists. split; vm_compute; reflexivity. Qed.

Example empty_inline_jwt_key_only :
  fst (JetStream.configureAuthentication (P:=example_platform) cfg_empty_jwt_key fresh_world)
  = Ret (Some (nkeyAuthenticator (JS.TextEncoder_encode "SEED"))).
Proof. reflexivity. Qed.

Lemma inline_credentials_envelope_witness :
  fst (JetStream.configureAuthentication (P:=example_platform) cfg_inline fresh_world)
  = Ret (Some (credsAuthenticator (JS.TextEncoder_encode (creds_envelope "JWT" "SEED"))))
  /\ fst (Core.configureAuthentication (P:=example_platform) cfg_inline_core fresh_world)
     = Ret (credsAuthenticator (JS.TextEncoder_encode (creds_envelope "JWT" "SEED"))).
Proof.
  assert (HJ : "JWT" <> "") by discriminate.
  assert (HK : "SEED" <> "") by discriminate.
  destruct (inline_credentials_envelope (P:=example_platform) "JWT" "SEED" HJ HK) as [A B].
  split.
  - apply A; reflexivity.
  - apply B; reflexivity.
Defined.

Lemma strict_start_refuses_witness :
  fst (Core.start (P:=example_platform) settings_no_auth fresh_world)
  = Throw (Error "NATS authentication not configured. Provide NATS_CREDS_FILE/NATS_JWT_FILE or NATS_USER_JWT and NATS_USER_SEED.")
  /\ connect_calls (trace (snd (Core.start (P:=example_platform) settings_no_auth fresh_world)))
     = 0.
Proof.
  destruct (strict_start_refuses (P:=example_platform) settings_no_auth fresh_world
              eq_refl eq_refl) as (A & B & _).
  split; [exact A|exact B].
Defined.

(** ** The message handler *)

(** Closes a goal [forall n, e n ∉ l] for an explicit list [l] none of whose
    events has the shape of [e n]. *)
Ltac absent_from_list :=
  let n := fresh "n" in
  let Hin := fresh "Hin" in
  intros n Hin;
  repeat (apply elem_of_cons in Hin as [Hin|Hin]; [discriminate Hin|]);
  inversion Hin.

Section MessageHandler.
Context `{P : Platform}.

Lemma sink_calls_app (tr1 tr2 : list Event) :
  sink_calls (tr1 ++ tr2) = sink_calls tr1 ++ sink_calls tr2.
Proof. apply omap_app. Qed.

Lemma acks_app (tr1 tr2 : list Event) : acks (tr1 ++ tr2) = acks tr1 ++ acks tr2.
Proof. apply omap_app. Qed.

(** What one call of the handler does to the process. *)
Lemma handleMessage_effect (name : string) (payload : list byte) (w : World) :
  let r := handleMessage name payload w in
  fst r = Ret tt /\
  messageCount (this (snd r)) = S (messageCount (this w)) /\
  parser_messageCount (parser (this (snd r)))
  = parser_messageCount (parser (this w)) + match decoded payload with Some _ => 1 | None => 0 end /\
  running (this (snd r)) = running (this w) /\
  nc (this (snd r)) = nc (this w) /\
  statsInterval (this (snd r)) = statsInterval (this w) /\
  timers (snd r) = timers w /\
  exists evs,
    trace (snd r) = trace w ++ evs /\
    sink_calls evs = match decoded payload with
                     | Some v => [(name, v)]
                     | None => []
                     end /\
    acks evs = [] /\
    forall n, handler_error_line n ∉ evs.
Proof.
  unfold handleMessage, Parser_processTransaction, decoded, handler_error_line.
  unfold bind, try_catch, update, call, get, logger, console_log, emit, ret. simpl.
  destruct (StringCodec_decode payload) as [text|e1]; simpl.
  - destruct (JSON_parse text) as [v|e2]; simpl.
    + destruct (JSON_stringify v) as [out|e3]; simpl;
        (repeat split; try lia; eexists; rewrite <- !app_assoc; simpl;
         repeat split; absent_from_list).
    + repeat split; try lia. eexists. repeat split. absent_from_list.
  - repeat split; try lia. eexists. repeat split. absent_from_list.
Qed.

Lemma feed_cons (i : string * list byte) (rest : list (string * list byte)) (w : World) :
  feed (i :: rest) w = feed rest (snd (handleMessage (fst i) (snd i) w)).
Proof.
  unfold feed. simpl. unfold bind at 1.
  pose proof (handleMessage_effect (fst i) (snd i) w) as [Hr _].
  destruct (handleMessage (fst i) (snd i) w) as [[[]|e] w1]; simpl in *;
    [reflexivity|discriminate].
Qed.

Lemma expected_sink_calls_cons (i : string * list byte) (rest : list (string * list byte)) :
  expected_sink_calls (i :: rest)
  = match decoded (snd i) with
    | Some v => (fst i, v) :: expected_sink_calls rest
    | None => expected_sink_calls rest
    end.
Proof. unfold expected_sink_calls. simpl. destruct (decoded (snd i)); reflexivity. Qed.

(** C3, as the code has it: feeding any sequence of payloads to the handler
    returns normally; the received counter grows by the number of payloads,
    the processed counter by the number of payloads for which the calls of
    [StringCodec().decode] and [JSON.parse] both return, and the sink is
    invoked exactly once for each of those, in order, with the stream name
    and the parsed value, and never for the others.  Whether the bytes are
    well-formed UTF-8 plays no part: that is for the decoder to judge. *)
Theorem feed_counts_and_sink (inputs : list (string * list byte)) (w : World) :
  let r := feed inputs w in
  fst r = Ret tt /\
  messageCount (this (snd r)) = messageCount (this w) + length inputs /\
  parser_messageCount (parser (this (snd r)))
  = parser_messageCount (parser (this w)) + length (expected_sink_calls inputs) /\
  sink_calls (trace (snd r)) = sink_calls (trace w) ++ expected_sink_calls inputs.
Proof.
  revert w. induction inputs as [|i rest IH]; intros w.
  - simpl. rewrite app_nil_r. repeat split; lia.
  - cbv zeta. rewrite feed_cons.
    pose proof (handleMessage_effect (fst i) (snd i) w) as
      (_ & Hm & Hp & _ & _ & _ & _ & evs & Htr & Hsink & _).
    destruct (IH (snd (handleMessage (fst i) (snd i) w))) as (Hr & Hm' & Hp' & Hs').
    cbv zeta in *.
    split; [exact Hr|]. split; [rewrite Hm', Hm; simpl; lia|].
    rewrite expected_sink_calls_cons. split.
    + rewrite Hp', Hp. destruct (decoded (snd i)); simpl; lia.
    + rewrite Hs', Htr, sink_calls_app, Hsink, <- app_assoc.
      destruct (decoded (snd i)); reflexivity.
Qed.

(** One payload, spelled out: a payload that decodes and parses adds one to
    both counters and one sink invocation; any other payload adds one to the
    received counter only. *)
Corollary handleMessage_one (name : string) (payload : list byte) (w : World) :
  let w' := snd (handleMessage name payload w) in
  messageCount (this w') = S (messageCount (this w)) /\
  match decoded payload with
  | Some v =>
      parser_messageCount (parser (this w')) = S (parser_messageCount (parser (this w))) /\
      sink_calls (trace w') = sink_calls (trace w) ++ [(name, v)]
  | None =>
      parser_messageCount (parser (this w')) = parser_messageCount (parser (this w)) /\
      sink_calls (trace w') = sink_calls (trace w)
  end.
Proof.
  pose proof (handleMessage_effect name payload w) as
    (_ & Hm & Hp & _ & _ & _ & _ & evs & Htr & Hsink & _).
  cbv zeta in *. split; [exact Hm|].
  rewrite Htr, sink_calls_app, Hsink.
  destruct (decoded payload); (split; [lia|]); [reflexivity|apply app_nil_r].
Qed.

Lemma JetStream_loop_step (name : string) (msg : Msg) (rest : list Msg) (w : World) :
  running (this w) = true ->
  exists w1,
    JetStream.receiveLoop handleMessage name (msg :: rest) w
    = JetStream.receiveLoop handleMessage name rest w1 /\
    running (this w1) = running (this w) /\
    exists evs, trace w1 = trace w ++ evs ++ [Ack msg] /\
                forall n, handler_error_line n ∉ evs.
Proof.
  intros Hrun.
  pose proof (handleMessage_effect name (data msg) w) as
    (Hr & _ & _ & Hrun' & _ & _ & _ & evs & Htr & _ & _ & Hno).
  cbv zeta in *.
  destruct (handleMessage name (data msg) w) as [[[]|e] w0] eqn:Hh; simpl in *;
    [|discriminate].
  eexists. split.
  - simpl. unfold bind at 1, get. simpl. rewrite Hrun. simpl.
    unfold bind at 1, try_catch, bind at 1. rewrite Hh. simpl. reflexivity.
  - simpl. split; [exact Hrun'|]. exists evs. rewrite Htr, <- app_assoc. auto.
Qed.

Lemma Core_loop_step (name : string) (msg : Msg) (rest : list Msg) (w : World) :
  running (this w) = true ->
  exists w1,
    Core.receiveLoop handleMessage name (msg :: rest) w
    = Core.receiveLoop handleMessage name rest w1 /\
    running (this w1) = running (this w) /\
    exists evs, trace w1 = trace w ++ evs /\
                forall n, handler_error_line n ∉ evs.
Proof.
  intros Hrun.
  pose proof (handleMessage_effect name (data msg) w) as
    (Hr & _ & _ & Hrun' & _ & _ & _ & evs & Htr & _ & _ & Hno).
  cbv zeta in *.
  destruct (handleMessage name (data msg) w) as [[[]|e] w0] eqn:Hh; simpl in *;
    [|discriminate].
  exists w0. split.
  - simpl. unfold bind at 1, get. simpl. rewrite Hrun. simpl.
    unfold bind at 1, try_catch. rewrite Hh. reflexivity.
  - split; [exact Hrun'|]. exists evs. auto.
Qed.

(** C10: whatever the payload and whatever the collaborators do, the
    handler returns normally; so in both receive loops the branch that logs
    a handler error is never taken, and the loops themselves return
    normally. *)
Theorem handleMessage_never_throws :
  (forall (name : string) (payload : list byte) (w : World),
     fst (handleMessage name payload w) = Ret tt)
  /\
  (forall (name : string) (msgs : list Msg) (w : World),
     fst (JetStream.receiveLoop handleMessage name msgs w) = Ret tt /\
     exists evs,
       trace (snd (JetStream.receiveLoop handleMessage name msgs w)) = trace w ++ evs /\
       forall n, handler_error_line n ∉ evs)
  /\
  (forall (name : string) (msgs : list Msg) (w : World),
     fst (Core.receiveLoop handleMessage name msgs w) = Ret tt /\
     exists evs,
       trace (snd (Core.receiveLoop handleMessage name msgs w)) = trace w ++ evs /\
       forall n, handler_error_line n ∉ evs).
Proof.
  split; [intros; apply handleMessage_effect|]. split.
  - intros name msgs. induction msgs as [|msg rest IH]; intros w.
    + simpl. split; [reflexivity|]. exists []. rewrite app_nil_r. split; [reflexivity|].
      absent_from_list.
    + destruct (running (this w)) eqn:Hrun.
      * destruct (JetStream_loop_step name msg rest w Hrun) as
          (w1 & -> & _ & evs & Htr & Hno).
        destruct (IH w1) as (Hr & evs' & Htr' & Hno'). split; [exact Hr|].
        exists (evs ++ [Ack msg] ++ evs'). rewrite Htr', Htr, <- !app_assoc.
        split; [reflexivity|].
        intros n Hin. apply elem_of_app in Hin as [Hin|Hin]; [exact (Hno n Hin)|].
        apply elem_of_app in Hin as [Hin|Hin]; [|exact (Hno' n Hin)].
        revert n Hin. absent_from_list.
      * simpl. unfold bind, get. simpl. rewrite Hrun. simpl.
        split; [reflexivity|]. exists []. rewrite app_nil_r. split; [reflexivity|].
        absent_from_list.
  - intros name msgs. induction msgs as [|msg rest IH]; intros w.
    + simpl. split; [reflexivity|]. exists []. rewrite app_nil_r. split; [reflexivity|].
      absent_from_list.
    + destruct (running (this w)) eqn:Hrun.
      * destruct (Core_loop_step name msg rest w Hrun) as
          (w1 & -> & _ & evs & Htr & Hno).
        destruct (IH w1) as (Hr & evs' & Htr' & Hno'). split; [exact Hr|].
        exists (evs ++ evs'). rewrite Htr', Htr, <- !app_assoc.
        split; [reflexivity|].
        intros n Hin. apply elem_of_app in Hin as [Hin|Hin];
          [exact (Hno n Hin)|exact (Hno' n Hin)].
      * simpl. unfold bind, get. simpl. rewrite Hrun. simpl.
        split; [reflexivity|]. exists []. rewrite app_nil_r. split; [reflexivity|].
        absent_from_list.
Qed.

End MessageHandler.

(** What [TextEncoder] writes is well-formed UTF-8. *)
Lemma encoded_text_valid_utf8 (s : string) : valid_utf8 (JS.TextEncoder_encode s) = true.
Proof.
  unfold valid_utf8. induction s as [|c r IH]; [reflexivity|].
  destruct c as [[] [] [] [] [] [] [] []]; exact IH.
Qed.

Example valid_utf8_examples :
  valid_utf8 [xc3; xa9] = true /\
  valid_utf8 [xe2; x82; xac] = true /\
  valid_utf8 [xf0; x9f; x98; x80] = true /\
  valid_utf8 [xc0; x80] = false /\
  valid_utf8 [xe2; x82] = false /\
  valid_utf8 [xed; xa0; x80] = false /\
  valid_utf8 [xf4; x90; x80; x80] = false /\
  valid_utf8 [x80] = false.
Proof. repeat split; reflexivity. Qed.

(** C3, counterexample: the payload [7b 22 61 22 3a 22 ff 22 7d] is not
    well-formed UTF-8, and yet the handler counts it as processed and hands
    it to the sink.  The decoder of the NATS client does not throw on an
    ill-formed byte: it returns a text with U+FFFD in its place (the decoder
    of the example platform returns one with the byte kept as a code unit),
    and that text parses. *)
Lemma ill_formed_utf8_is_processed :
  ~ (forall (P : Platform) (name : string) (payload : list byte) (w : World),
       valid_utf8 payload = false ->
       let w' := snd (handleMessage name payload w) in
       parser_messageCount (parser (this w')) = parser_messageCount (parser (this w)) /\
       sink_calls (trace w') = sink_calls (trace w)).
Proof.
  intros H.
  destruct (H example_platform "pumpfun" ill_formed_payload fresh_world eq_refl) as [Hc _].
  vm_compute in Hc. discriminate Hc.
Qed.

Example ill_formed_payload_counted :
  let w := snd (handleMessage (P:=example_platform) "pumpfun" ill_formed_payload
                  fresh_world) in
  valid_utf8 ill_formed_payload = false /\
  messageCount (this w) = 1 /\
  parser_messageCount (parser (this w)) = 1 /\
  sink_calls (trace w) = [("pumpfun", string_of_list_byte ill_formed_payload)].
Proof. repeat split; reflexivity. Qed.

(** ** The receive loop and shutdown *)

Section ReceiveLoop.
Context `{P : Platform}.
Variable handler : string -> list byte -> M unit.
Variable name : string.

Lemma JetStream_loop_stopped (msgs : list Msg) (w : World) :
  running (this w) = false ->
  JetStream.receiveLoop handler name msgs w = (Ret tt, w).
Proof.
  intros H. destruct msgs as [|msg rest]; [reflexivity|].
  simpl. unfold bind, get. simpl. rewrite H. reflexivity.
Qed.

(** One turn of the loop while the consumer is running. *)
Lemma JetStream_loop_turn (msg : Msg) (rest : list Msg) (w : World) :
  running (this w) = true ->
  let r := handler name (data msg) w in
  let logged := if is_Ret (fst r) then [] else [handler_error_line name] in
  exists w1,
    JetStream.receiveLoop handler name (msg :: rest) w
    = JetStream.receiveLoop handler name rest w1 /\
    this w1 = this (snd r) /\
    timers w1 = timers (snd r) /\
    trace w1 = trace (snd r) ++ logged ++ [Ack msg].
Proof.
  intros Hrun. cbv zeta.
  destruct (handler name (data msg) w) as [[[]|e] w0] eqn:Hh; simpl.
  - eexists. split.
    + unfold bind at 1, get. simpl. rewrite Hrun. simpl.
      unfold bind at 1, try_catch, bind at 1. rewrite Hh. simpl. reflexivity.
    + simpl. auto.
  - eexists. split.
    + unfold bind at 1, get. simpl. rewrite Hrun. simpl.
      unfold bind at 1, try_catch, bind at 1. rewrite Hh. simpl. reflexivity.
    + simpl. rewrite <- app_assoc. auto.
Qed.

(** C5: in the JetStream receive loop, while the consumer is running, each
    message is acknowledged after its handler call whether the call returned
    or threw; a throw is logged first, and the loop goes on with the next
    message.  Hence, for a handler that neither stops the consumer nor
    acknowledges anything itself, the loop returns normally having
    acknowledged every message, once and in order, whichever of them the
    handler rejected. *)
Theorem receive_loop_acks :
  (forall (msg : Msg) (rest : list Msg) (w : World),
     running (this w) = true ->
     let r := handler name (data msg) w in
     let logged := if is_Ret (fst r) then [] else [handler_error_line name] in
     exists w1,
       JetStream.receiveLoop handler name (msg :: rest) w
       = JetStream.receiveLoop handler name rest w1 /\
       this w1 = this (snd r) /\
       trace w1 = trace (snd r) ++ logged ++ [Ack msg])
  /\
  ((forall n d w, running (this (snd (handler n d w))) = running (this w)) ->
   (forall n d w, acks (trace (snd (handler n d w))) = acks (trace w)) ->
   forall (msgs : list Msg) (w : World),
     running (this w) = true ->
     fst (JetStream.receiveLoop handler name msgs w) = Ret tt /\
     acks (trace (snd (JetStream.receiveLoop handler name msgs w)))
     = acks (trace w) ++ msgs).
Proof.
  split.
  - intros msg rest w Hrun.
    destruct (JetStream_loop_turn msg rest w Hrun) as (w1 & H1 & H2 & _ & H3). eauto.
  - intros Hkeep Hnoack msgs. induction msgs as [|msg rest IH]; intros w Hrun.
    + simpl. rewrite app_nil_r. auto.
    + destruct (JetStream_loop_turn msg rest w Hrun) as (w1 & -> & Hthis & _ & Htr).
      assert (Hrun1 : running (this w1) = true) by (rewrite Hthis, Hkeep; exact Hrun).
      destruct (IH w1 Hrun1) as [Hr Hacks]. split; [exact Hr|].
      rewrite Hacks, Htr, !acks_app, Hnoack.
      destruct (is_Ret (fst (handler name (data msg) w))); simpl;
        rewrite <- app_assoc; reflexivity.
Qed.

End ReceiveLoop.

Section Shutdown.
Context `{P : Platform}.

(** What one call of [stop] does to the process. *)
Lemma stop_effect (w : World) :
  let r := stop w in
  running (this (snd r)) = false /\
  messageCount (this (snd r)) = messageCount (this w) /\
  parser (this (snd r)) = parser (this w) /\
  statsInterval (this (snd r)) = statsInterval (this w) /\
  timers (snd r) = match statsInterval (this w) with
                   | Some t => timers w ∖ {[t]}
                   | None => timers w
                   end /\
  match nc (this w) with
  | Some c => nc (this (snd r)) = Some (snd (nc_drain c)) /\ fst r = fst (nc_drain c)
  | None => nc (this (snd r)) = None /\ fst r = Ret tt
  end /\
  exists evs,
    trace (snd r) = trace w ++ Logged "NATSConsumer" info "Stopping consumer" :: evs /\
    (is_Some (nc (this w)) -> Drained ∈ evs).
Proof.
  destruct w as [[c m run p si] tm nt tr].
  unfold stop, Parser_stop, drain, clearInterval, logger.
  unfold bind, update, get, emit, call, ret. simpl.
  destruct si as [t|], c as [c|]; simpl;
    try (destruct (nc_drain c) as [[[]|e] c'] eqn:E; simpl);
    (repeat split; [eexists; rewrite <- !app_assoc; simpl; split; [reflexivity|]]);
    intros [c0 Hc0]; try discriminate Hc0; set_solver.
Qed.

(** C6, as the code has it: a second [stop] leaves the consumer stopped,
    the stats timer cancelled and the counters as the first left them, but
    it is not guarded and runs the whole sequence again: it logs, drains the
    connection a second time and returns whatever that second [drain]
    returns.  It returns normally, with the state unchanged, when no
    connection was ever opened, or when draining the drained connection
    succeeds and changes nothing. *)
Theorem stop_twice (w : World) :
  let w1 := snd (stop w) in
  let r2 := stop w1 in
  running (this w1) = false /\
  running (this (snd r2)) = false /\
  timers (snd r2) = timers w1 /\
  match statsInterval (this w) with
  | Some t => t ∉ timers w1
  | None => True
  end /\
  messageCount (this (snd r2)) = messageCount (this w1) /\
  parser (this (snd r2)) = parser (this w1) /\
  statsInterval (this (snd r2)) = statsInterval (this w1) /\
  nc (this w1) = match nc (this w) with
                 | Some c => Some (snd (nc_drain c))
                 | None => None
                 end /\
  (exists evs,
     trace (snd r2) = trace w1 ++ Logged "NATSConsumer" info "Stopping consumer" :: evs /\
     (is_Some (nc (this w1)) -> Drained ∈ evs)) /\
  match nc (this w1) with
  | Some c1 =>
      fst r2 = fst (nc_drain c1) /\
      nc (this (snd r2)) = Some (snd (nc_drain c1)) /\
      (nc_drain c1 = (Ret tt, c1) -> fst r2 = Ret tt /\ this (snd r2) = this w1)
  | None => fst r2 = Ret tt /\ this (snd r2) = this w1
  end.
Proof.
  cbv zeta.
  pose proof (stop_effect w) as (Hrun1 & Hm1 & Hp1 & Hsi1 & Htm1 & Hnc1 & _).
  pose proof (stop_effect (snd (stop w))) as (Hrun2 & Hm2 & Hp2 & Hsi2 & Htm2 & Hnc2 & Htr2).
  cbv zeta in *.
  split; [exact Hrun1|]. split; [exact Hrun2|].
  split.
  { rewrite Htm2, Hsi1, Htm1.
    destruct (statsInterval (this w)); [apply difference_twice_L|reflexivity]. }
  split.
  { rewrite Htm1. destruct (statsInterval (this w)) as [t|]; [|exact I].
    intros [_ Hin]%elem_of_difference. apply Hin, elem_of_singleton. reflexivity. }
  split; [exact Hm2|]. split; [exact Hp2|]. split; [exact Hsi2|].
  split.
  { destruct (nc (this w)); destruct Hnc1 as [Hnc1 _]; exact Hnc1. }
  split; [exact Htr2|].
  assert (Heq : forall a b : NATSConsumer,
             nc a = nc b -> messageCount a = messageCount b -> running a = running b ->
             parser a = parser b -> statsInterval a = statsInterval b -> a = b).
  { intros [] []; simpl; intros; subst; reflexivity. }
  destruct (nc (this (snd (stop w)))) as [c1|] eqn:Hc1.
  - destruct Hnc2 as [Hnc2 Hr2]. split; [exact Hr2|]. split; [exact Hnc2|].
    intros Hidem. rewrite Hidem in *. simpl in *. split; [exact Hr2|].
    apply Heq; congruence.
  - destruct Hnc2 as [Hnc2 Hr2]. split; [exact Hr2|]. apply Heq; congruence.
Qed.

End Shutdown.

(** C6, counterexample: on a started consumer the first [stop] returns
    normally and the second throws, since the NATS client rejects [drain]
    on a closed connection. *)
Lemma second_stop_rejected :
  ~ (forall (P : Platform) (w : World), fst (stop (snd (stop w))) = Ret tt).
Proof.
  intros H. specialize (H example_platform started_world).
  vm_compute in H. discriminate H.
Qed.

Example first_stop_returns : fst (stop started_world) = Ret tt.
Proof. reflexivity. Qed.

Example second_stop_throws :
  fst (stop (snd (stop started_world))) = Throw (Error "CONNECTION_CLOSED").
Proof. reflexivity. Qed.

Lemma receive_loop_acks_witness :
  acks (trace (snd (JetStream.receiveLoop (P:=example_platform) picky_handler
                      "pumpfun" two_msgs started_world)))
  = two_msgs.
Proof.
  destruct (receive_loop_acks (P:=example_platform) picky_handler "pumpfun") as [_ Hall].
  apply (Hall (fun n d w => match d with [] => eq_refl | _ :: _ => eq_refl end)
              (fun n d w => match d with [] => eq_refl | _ :: _ => eq_refl end)
              two_msgs started_world eq_refl).
Defined.

(** ** The theorems at concrete inputs *)

Example file_beats_inline :
  first_match cfg_file_and_inline = CredentialsBlob /\
  fst (JetStream.configureAuthentication (P:=example_platform) cfg_file_and_inline fresh_world)
  = Ret (Some (credsAuthenticator (JS.TextEncoder_encode "CREDS"))).
Proof. split; reflexivity. Qed.

Example scenario_three_payloads :
  let w := snd (feed (P:=example_platform) three_payloads fresh_world) in
  messageCount (this w) = 3 /\
  parser_messageCount (parser (this w)) = 2 /\
  sink_calls (trace w) = [("pumpfun", "{}"); ("pumpfun", "{ }")].
Proof. repeat split; reflexivity. Qed.

Lemma equal_lengths_targets_witness :
  (exists s, Core.settings env_two_streams = Ret s /\
     length (Core.streams s) = length (Core.names_of env_two_streams) /\
     Core.streams s !! 1 = Some {| Core.name := "b"; Core.subject := "z" |})
  /\
  (exists s, fst (JetStream.settings (P:=example_platform) env_two_streams fresh_world) = Ret s /\
     length (JetStream.streams s) = length (JetStream.names_of env_two_streams) /\
     JetStream.streams s !! 0
     = Some {| JetStream.name := "a"; JetStream.subject := "x.y"; JetStream.stream := "S1" |}).
Proof.
  destruct (equal_lengths_targets (P:=example_platform) env_two_streams) as [HC HJ].
  split.
  - destruct HC as (s & Hs & Hlen & Hall); [vm_compute; reflexivity|].
    exists s. split; [exact Hs|]. split; [exact Hlen|].
    apply (Hall 1 " b" "z"); vm_compute; reflexivity.
  - destruct (HJ ltac:(vm_compute; reflexivity) ltac:(vm_compute; reflexivity) fresh_world)
      as (s & Hs & Hlen & Hall).
    exists s. split; [exact Hs|]. split; [exact Hlen|].
    apply (Hall 0 "a" " x.y " "S1"); vm_compute; reflexivity.
Defined.

Lemma stats_interval_from_env_witness :
  exists s, Core.settings env_two_streams = Ret s /\
    exists z, Core.statsInterval s = JS.Num z /\ (0 < z)%Z.
Proof.
  destruct (stats_interval_from_env (P:=example_platform) env_two_streams) as [HC _].
  destruct (Core.settings env_two_streams) as [s|e] eqn:Hs.
  - exists s. split; [reflexivity|]. apply (HC s eq_refl). vm_compute. reflexivity.
  - vm_compute in Hs. discriminate Hs.
Defined.

Lemma stop_twice_witness :
  let w1 := snd (stop (started_with (P:=forgiving_platform) Open)) in
  fst (stop w1) = Ret tt /\ this (snd (stop w1)) = this w1 /\ timers (snd (stop w1)) = timers w1.
Proof.
  pose proof (stop_twice (P:=forgiving_platform) (started_with (P:=forgiving_platform) Open))
    as (_ & _ & Htm & _ & _ & _ & _ & _ & _ & Hnc).
  cbv zeta in *. simpl nc in Hnc.
  destruct Hnc as (_ & _ & Hidem). destruct (Hidem eq_refl) as [Hr Hthis].
  split; [exact Hr|]. split; [exact Hthis|exact Htm].
Defined.

(** * Further properties *)

(** ** Trimming and splitting *)

Lemma trimStart_head (s : string) :
  match JS.trimStart s with
  | "" => True
  | String c _ => JS.is_space c = false
  end.
Proof.
  induction s as [|c r IH]; simpl; [exact I|].
  destruct (JS.is_space c) eqn:E; [exact IH|exact E].
Qed.

Lemma trimStart_fixed (c : ascii) (r : string) :
  JS.is_space c = false -> JS.trimStart (String c r) = String c r.
Proof. intros H. simpl. rewrite H. reflexivity. Qed.

Lemma trimEnd_cons (c : ascii) (r : string) :
  JS.trimEnd (String c r)
  = match JS.trimEnd r with
    | "" => if JS.is_space c then "" else String c ""
    | String c' r' => String c (String c' r')
    end.
Proof. reflexivity. Qed.

Lemma trimEnd_head (c : ascii) (r : string) :
  JS.is_space c = false -> exists r', JS.trimEnd (String c r) = String c r'.
Proof.
  intros H. rewrite trimEnd_cons. destruct (JS.trimEnd r); [rewrite H|]; eauto.
Qed.

Lemma trimEnd_idempotent (s : string) : JS.trimEnd (JS.trimEnd s) = JS.trimEnd s.
Proof.
  induction s as [|c r IH]; [reflexivity|].
  rewrite trimEnd_cons. destruct (JS.trimEnd r) as [|c' r'] eqn:E.
  - destruct (JS.is_space c) eqn:Hc; [reflexivity|]. simpl. rewrite Hc. reflexivity.
  - rewrite trimEnd_cons, IH. reflexivity.
Qed.

Lemma trim_trimmed (s : string) : trimmed (JS.trim s).
Proof.
  unfold trimmed, JS.trim. split; [|apply trimEnd_idempotent].
  pose proof (trimStart_head s) as H.
  destruct (JS.trimStart s) as [|c r]; [reflexivity|].
  destruct (trimEnd_head c r H) as [r' ->]. apply trimStart_fixed, H.
Qed.

Lemma trimStart_commas (s : string) : commas (JS.trimStart s) <= commas s.
Proof.
  induction s as [|c r IH]; simpl; [lia|].
  destruct (JS.is_space c); simpl; destruct (Ascii.eqb c ","); lia.
Qed.

Lemma trimEnd_commas (s : string) : commas (JS.trimEnd s) <= commas s.
Proof.
  induction s as [|c r IH]; [simpl; lia|].
  rewrite trimEnd_cons. destruct (JS.trimEnd r) as [|c' r'] eqn:E.
  - destruct (JS.is_space c); simpl; destruct (Ascii.eqb c ","); simpl in *; lia.
  - change (commas (String c (String c' r'))) with
      (if Ascii.eqb c "," then S (commas (String c' r')) else commas (String c' r')).
    change (commas (String c r)) with
      (if Ascii.eqb c "," then S (commas r) else commas r).
    destruct (Ascii.eqb c ","); lia.
Qed.

Lemma trim_commas (s : string) : commas s = 0 -> commas (JS.trim s) = 0.
Proof.
  intros H. unfold JS.trim.
  pose proof (trimEnd_commas (JS.trimStart s)). pose proof (trimStart_commas s). lia.
Qed.

Lemma split_nonempty (s : string) : JS.split "," s <> [].
Proof.
  induction s as [|c r IH]; simpl; [discriminate|].
  destruct (Ascii.eqb c ","); [discriminate|].
  destruct (JS.split "," r); [congruence|discriminate].
Qed.

Lemma split_length (s : string) : length (JS.split "," s) = S (commas s).
Proof.
  induction s as [|c r IH]; simpl; [reflexivity|].
  destruct (Ascii.eqb c ","); simpl; [rewrite IH; reflexivity|].
  destruct (JS.split "," r) as [|h t] eqn:E; simpl in *; [discriminate IH|exact IH].
Qed.

Lemma split_comma_free (s : string) : Forall (fun x => commas x = 0) (JS.split "," s).
Proof.
  induction s as [|c r IH]; simpl; [repeat constructor|].
  destruct (Ascii.eqb c ",") eqn:Hc; [constructor; [reflexivity|exact IH]|].
  destruct (JS.split "," r) as [|h t]; [repeat constructor; simpl; rewrite Hc; reflexivity|].
  inversion IH; subst. constructor; [simpl; rewrite Hc; assumption|assumption].
Qed.

Lemma split_join (s : string) : String.concat "," (JS.split "," s) = s.
Proof.
  induction s as [|c r IH]; [reflexivity|].
  simpl. destruct (Ascii.eqb_spec c ",") as [->|Hc].
  - destruct (JS.split "," r) as [|h t] eqn:E; [destruct (split_nonempty r E)|].
    simpl in *. rewrite IH. reflexivity.
  - destruct (JS.split "," r) as [|h t] eqn:E; [destruct (split_nonempty r E)|].
    destruct t; simpl in *; rewrite <- IH; reflexivity.
Qed.

(** ** Decimal numerals *)

Lemma parse_digits_numeral (d : Decimal.uint) (acc : nat) :
  JS.parse_digits 10 (Some (Z.of_nat acc)) (NilEmpty.string_of_uint d)
  = Some (Z.of_nat (Nat.of_uint_acc d acc)).
Proof.
  revert acc. induction d; intros acc; simpl; [reflexivity|..];
    (etransitivity; [|apply IHd]); f_equal; f_equal;
    rewrite Nat.tail_mul_spec; lia.
Qed.

Lemma parse_digits_start (d : Decimal.uint) :
  d <> Decimal.Nil ->
  JS.parse_digits 10 None (NilEmpty.string_of_uint d)
  = JS.parse_digits 10 (Some 0%Z) (NilEmpty.string_of_uint d).
Proof. destruct d; [congruence|..]; reflexivity. Qed.

(** [parseInt] reads the decimal numeral of a natural number as the Number
    nearest to it. *)
Lemma parseInt_numeral (n : nat) :
  JS.parseInt (JS.nat_toString n) = JS.to_Number (Z.of_nat n).
Proof.
  unfold JS.nat_toString, NilZero.string_of_uint.
  pose proof (Unsigned.of_to n) as Hof. unfold Nat.of_uint in Hof.
  destruct (Nat.to_uint n) as [|d|d|d|d|d|d|d|d|d|d] eqn:E.
  { simpl in Hof. subst n. reflexivity. }
  all: match goal with |- context [NilEmpty.string_of_uint ?u] =>
         assert (Hnil : u <> Decimal.Nil) by discriminate;
         pose proof (parse_digits_start u Hnil) as Hs;
         change (Some 0%Z) with (Some (Z.of_nat 0)) in Hs;
         rewrite (parse_digits_numeral u 0) in Hs; rewrite Hof in Hs
       end.
  2-10: cbn [NilEmpty.string_of_uint] in *; revert Hs;
    generalize (NilEmpty.string_of_uint d); intros t Hs;
    unfold JS.parseInt; cbv -[JS.parse_digits JS.to_Number Z.mul Z.of_nat]; rewrite Hs; f_equal; lia.
  destruct d; cbn [NilEmpty.string_of_uint] in *; revert Hs;
    try generalize (NilEmpty.string_of_uint d); intros;
    unfold JS.parseInt; cbv -[JS.parse_digits JS.to_Number Z.mul Z.of_nat];
    match goal with H : JS.parse_digits _ _ _ = _ |- _ => rewrite H end; f_equal; lia.
Qed.

(** ... and with a minus sign in front, its opposite. *)
Lemma parseInt_negative_numeral (n : nat) :
  JS.parseInt (String "-" (JS.nat_toString n)) = JS.to_Number (- Z.of_nat n).
Proof.
  unfold JS.nat_toString, NilZero.string_of_uint.
  pose proof (Unsigned.of_to n) as Hof. unfold Nat.of_uint in Hof.
  destruct (Nat.to_uint n) as [|d|d|d|d|d|d|d|d|d|d] eqn:E.
  { simpl in Hof. subst n. reflexivity. }
  all: match goal with |- context [NilEmpty.string_of_uint ?u] =>
         assert (Hnil : u <> Decimal.Nil) by discriminate;
         pose proof (parse_digits_start u Hnil) as Hs;
         change (Some 0%Z) with (Some (Z.of_nat 0)) in Hs;
         rewrite (parse_digits_numeral u 0) in Hs; rewrite Hof in Hs
       end.
  2-10: cbn [NilEmpty.string_of_uint] in *; revert Hs;
    generalize (NilEmpty.string_of_uint d); intros t Hs;
    unfold JS.parseInt; cbv -[JS.parse_digits JS.to_Number Z.mul Z.of_nat]; rewrite Hs; f_equal; lia.
  destruct d; cbn [NilEmpty.string_of_uint] in *; revert Hs;
    try generalize (NilEmpty.string_of_uint d); intros;
    unfold JS.parseInt; cbv -[JS.parse_digits JS.to_Number Z.mul Z.of_nat];
    match goal with H : JS.parse_digits _ _ _ = _ |- _ => rewrite H end; f_equal; lia.
Qed.

(** Up to [2^53] every integer is a Number. *)
Lemma round_binary64_exact (m : Z) : (0 <= m <= 2 ^ 53)%Z -> JS.round_binary64 m = m.
Proof.
  intros [H0 H]. destruct (Z.eq_dec m (2 ^ 53)%Z) as [->|Hne]; [vm_compute; reflexivity|].
  change (2 ^ 53)%Z with 9007199254740992%Z in *.
  assert (Hlog : (Z.log2 m <= 52)%Z).
  { destruct (Z.eq_dec m 0%Z) as [->|Hpos]; [vm_compute; discriminate|].
    apply Z.lt_succ_r. change (Z.succ 52) with 53%Z.
    apply Z.log2_lt_pow2; [lia|]. change (2 ^ 53)%Z with 9007199254740992%Z. lia. }
  unfold JS.round_binary64. cbv zeta.
  destruct (Z.leb_spec (Z.log2 m - 52) 0); [reflexivity|lia].
Qed.

Lemma to_Number_exact (z : Z) : (Z.abs z <= 2 ^ 53)%Z -> JS.to_Number z = JS.Num z.
Proof.
  intros H. unfold JS.to_Number. cbv zeta.
  rewrite round_binary64_exact by (split; [apply Z.abs_nonneg|exact H]).
  assert (Hlt : (Z.abs z < 2 ^ 1024)%Z).
  { eapply Z.le_lt_trans; [exact H|]. apply Z.pow_lt_mono_r; lia. }
  apply Z.leb_gt in Hlt. rewrite Hlt. f_equal. destruct z; reflexivity.
Qed.

(** From [2^1024] on an integer is beyond every finite Number. *)
Lemma round_binary64_large (m : Z) :
  (2 ^ 1024 <= m)%Z -> (2 ^ 1024 <= JS.round_binary64 m)%Z.
Proof.
  intros H.
  assert (Hpos : (0 < m)%Z).
  { eapply Z.lt_le_trans; [|exact H]. apply Z.pow_pos_nonneg; lia. }
  assert (Hlog : (1024 <= Z.log2 m)%Z).
  { rewrite <- (Z.log2_pow2 1024) by lia. apply Z.log2_le_mono. exact H. }
  destruct (Z.log2_spec m Hpos) as [Hlo _].
  unfold JS.round_binary64. cbv zeta.
  remember (Z.log2 m - 52)%Z as e eqn:He.
  destruct (Z.leb_spec e 0); [lia|].
  rewrite Z.shiftl_mul_pow2, Z.shiftr_div_pow2 by lia.
  assert (He2 : (0 < 2 ^ e)%Z) by (apply Z.pow_pos_nonneg; lia).
  assert (Hq : (2 ^ 52 <= m / 2 ^ e)%Z).
  { apply Z.div_le_lower_bound; [exact He2|].
    rewrite <- Z.pow_add_r by lia. replace (e + 52)%Z with (Z.log2 m) by lia. exact Hlo. }
  match goal with |- (_ <= ?q' * _)%Z => assert (Hq' : (2 ^ 52 <= q')%Z) end.
  { match goal with |- context [if ?c then _ else _] => destruct c end; lia. }
  transitivity (2 ^ Z.log2 m)%Z; [apply Z.pow_le_mono_r; lia|].
  replace (Z.log2 m) with (52 + e)%Z by lia. rewrite Z.pow_add_r by lia.
  apply Z.mul_le_mono_nonneg_r; [lia|exact Hq'].
Qed.

Lemma to_Number_overflow (z : Z) :
  (2 ^ 1024 <= Z.abs z)%Z -> JS.to_Number z = JS.Infinity (z <? 0)%Z.
Proof.
  intros H. unfold JS.to_Number. cbv zeta.
  apply round_binary64_large, Z.leb_le in H. rewrite H. reflexivity.
Qed.

Lemma nat_toString_nonempty (n : nat) : exists c r, JS.nat_toString n = String c r.
Proof.
  unfold JS.nat_toString, NilZero.string_of_uint.
  destruct (Nat.to_uint n); simpl; eauto.
Qed.

(** ** What the loaders make of the environment *)

Lemma env_list_comma_free (env : gmap string string) (k : string) (fallback : list string) :
  Forall (fun x => commas x = 0) fallback ->
  Forall (fun x => commas x = 0) (env_list env k fallback).
Proof.
  intros H. unfold env_list. destruct (env !! k); [apply split_comma_free|exact H].
Qed.

Lemma Core_settings_streams (env : gmap string string) (s : Core.Settings) :
  Core.settings env = Ret s ->
  length (Core.names_of env) = length (Core.subjects_of env) /\
  Core.parseStreamConfig env = Ret (Core.streams s) /\
  Core.statsInterval s = JS.parseInt (JS.or_default (env !! "STATS_INTERVAL") "5000") /\
  Core.port (Core.nats s) = JS.parseInt (JS.or_default (env !! "NATS_PORT") "4222").
Proof.
  intros Hs.
  destruct (Nat.eq_dec (length (Core.names_of env)) (length (Core.subjects_of env)))
    as [Hlen|Hlen].
  - split; [exact Hlen|]. unfold Core.settings in Hs.
    destruct (Core.parseStreamConfig env); [|discriminate].
    inversion Hs; subst; simpl. auto.
  - unfold Core.settings in Hs.
    rewrite (Core_parseStreamConfig_mismatch env Hlen) in Hs. discriminate.
Qed.

Section Loaders.
Context `{P : Platform}.

(** The JetStream loader, spelled out: the two credentials are looked up,
    then [parseStreamConfig] decides. *)
Lemma JetStream_settings_shape (env : gmap string string) (w : World) :
  exists j k w1 w2,
    JetStream.inline_or_file (env !! "NATS_JWT") (env !! "NATS_JWT_FILE") w = (Ret j, w1) /\
    JetStream.inline_or_file (env !! "NATS_NKEY") (env !! "NATS_NKEY_FILE") w1 = (Ret k, w2) /\
    snd (JetStream.settings env w) = w2 /\
    match JetStream.parseStreamConfig env with
    | Throw e => fst (JetStream.settings env w) = Throw e
    | Ret l =>
        exists s, fst (JetStream.settings env w) = Ret s /\
          JetStream.streams s = l /\
          JetStream.jwt (JetStream.nats s) = j /\
          JetStream.nkey (JetStream.nats s) = k /\
          JetStream.jwtFile (JetStream.nats s) = env !! "NATS_JWT_FILE" /\
          JetStream.statsInterval s
          = JS.parseInt (JS.or_default (env !! "STATS_INTERVAL") "5000") /\
          JetStream.port (JetStream.nats s)
          = JS.parseInt (JS.or_default (env !! "NATS_PORT") "4222")
    end.
Proof.
  destruct (inline_or_file_returns (env !! "NATS_JWT") (env !! "NATS_JWT_FILE") w)
    as (j & w1 & Hj).
  destruct (inline_or_file_returns (env !! "NATS_NKEY") (env !! "NATS_NKEY_FILE") w1)
    as (k & w2 & Hk).
  exists j, k, w1, w2. split; [exact Hj|]. split; [exact Hk|].
  unfold JetStream.settings, bind. rewrite Hj, Hk. unfold call, ret.
  destruct (JetStream.parseStreamConfig env); simpl; eauto 10.
Qed.

Lemma JetStream_settings_streams (env : gmap string string) (w : World)
    (s : JetStream.Settings) :
  fst (JetStream.settings env w) = Ret s ->
  length (JetStream.names_of env) = length (JetStream.subjects_of env) /\
  length (JetStream.names_of env) = length (JetStream.streams_of env) /\
  JetStream.parseStreamConfig env = Ret (JetStream.streams s) /\
  JetStream.statsInterval s = JS.parseInt (JS.or_default (env !! "STATS_INTERVAL") "5000") /\
  JetStream.port (JetStream.nats s) = JS.parseInt (JS.or_default (env !! "NATS_PORT") "4222").
Proof.
  intros Hs.
  destruct (JetStream_settings_shape env w) as (j & k & w1 & w2 & _ & _ & _ & R).
  destruct (Nat.eq_dec (length (JetStream.names_of env)) (length (JetStream.subjects_of env)))
    as [H1|H1];
    [destruct (Nat.eq_dec (length (JetStream.names_of env))
                          (length (JetStream.streams_of env))) as [H2|H2]|].
  - split; [exact H1|]. split; [exact H2|].
    destruct (JetStream.parseStreamConfig env).
    + destruct R as (s' & Hs' & Hl & _ & _ & _ & Hi & Hp).
      rewrite Hs in Hs'. inversion Hs'; subst. auto.
    + rewrite Hs in R. discriminate.
  - rewrite JetStream_parseStreamConfig_mismatch in R by (intros [A B]; congruence).
    rewrite Hs in R. discriminate.
  - rewrite JetStream_parseStreamConfig_mismatch in R by (intros [A B]; congruence).
    rewrite Hs in R. discriminate.
Qed.

(** Every stream target of a loaded configuration has a name and a subject
    (and, in the JetStream variant, a stream id) without white space at
    either end and without a comma. *)
Theorem targets_trimmed (env : gmap string string) :
  (forall s, Core.settings env = Ret s ->
     Forall (fun t => trimmed (Core.name t) /\ trimmed (Core.subject t) /\
                      commas (Core.name t) = 0 /\ commas (Core.subject t) = 0)
            (Core.streams s))
  /\
  (forall (w : World) s, fst (JetStream.settings env w) = Ret s ->
     Forall (fun t => trimmed (JetStream.name t) /\ trimmed (JetStream.subject t) /\
                      trimmed (JetStream.stream t) /\
                      commas (JetStream.name t) = 0 /\ commas (JetStream.subject t) = 0 /\
                      commas (JetStream.stream t) = 0)
            (JetStream.streams s)).
Proof.
  assert (Hlit : forall l, Forall (fun x => commas x = 0) l ->
            forall k, Forall (fun x => commas x = 0) (env_list env k l))
    by (intros; apply env_list_comma_free; assumption).
  split.
  - intros s Hs. destruct (Core_settings_streams env s Hs) as (Hlen & Hp & _).
    destruct (Core_parseStreamConfig_equal env Hlen) as (l & Hl & Hn & Hall).
    rewrite Hp in Hl. inversion Hl; subst l. clear Hl.
    apply Forall_lookup. intros i t Ht.
    assert (Hi : i < length (Core.names_of env))
      by (rewrite <- Hn; eapply lookup_lt_Some; eassumption).
    destruct (lookup_lt_is_Some_2 _ _ Hi) as [n Hnm].
    rewrite Hlen in Hi. destruct (lookup_lt_is_Some_2 _ _ Hi) as [sub Hsub].
    rewrite (Hall i n sub Hnm Hsub) in Ht. inversion Ht; subst t; simpl.
    assert (Cn : commas n = 0).
    { refine (Forall_lookup_1 (fun x => commas x = 0) _ _ _ _ Hnm).
      apply Hlit. repeat constructor. }
    assert (Cs : commas sub = 0).
    { refine (Forall_lookup_1 (fun x => commas x = 0) _ _ _ _ Hsub).
      apply Hlit. repeat constructor. }
    repeat split; try apply trim_trimmed; apply trim_commas; assumption.
  - intros w s Hs. destruct (JetStream_settings_streams env w s Hs) as (H1 & H2 & Hp & _).
    destruct (JetStream_parseStreamConfig_equal env H1 H2) as (l & Hl & Hn & Hall).
    rewrite Hp in Hl. inversion Hl; subst l. clear Hl.
    apply Forall_lookup. intros i t Ht.
    assert (Hi : i < length (JetStream.names_of env))
      by (rewrite <- Hn; eapply lookup_lt_Some; eassumption).
    destruct (lookup_lt_is_Some_2 _ _ Hi) as [n Hnm].
    assert (Hi2 := Hi). rewrite H1 in Hi. rewrite H2 in Hi2.
    destruct (lookup_lt_is_Some_2 _ _ Hi) as [sub Hsub].
    destruct (lookup_lt_is_Some_2 _ _ Hi2) as [j Hj].
    rewrite (Hall i n sub j Hnm Hsub Hj) in Ht. inversion Ht; subst t; simpl.
    assert (Cn : commas n = 0).
    { refine (Forall_lookup_1 (fun x => commas x = 0) _ _ _ _ Hnm).
      apply Hlit. repeat constructor. }
    assert (Cs : commas sub = 0).
    { refine (Forall_lookup_1 (fun x => commas x = 0) _ _ _ _ Hsub).
      apply Hlit. repeat constructor. }
    assert (Cj : commas j = 0).
    { refine (Forall_lookup_1 (fun x => commas x = 0) _ _ _ _ Hj).
      apply Hlit. repeat constructor. }
    repeat split; try apply trim_trimmed; apply trim_commas; assumption.
Qed.

(** When STREAM_NAMES is set, a loaded configuration has one stream target
    more than the value has commas (so the empty value gives one target,
    with the empty name), and the names array joined by commas is the value
    again. *)
Theorem targets_counted (env : gmap string string) (v : string) :
  env !! "STREAM_NAMES" = Some v ->
  (forall s, Core.settings env = Ret s -> length (Core.streams s) = S (commas v)) /\
  (forall (w : World) s, fst (JetStream.settings env w) = Ret s ->
     length (JetStream.streams s) = S (commas v)) /\
  String.concat "," (Core.names_of env) = v /\
  String.concat "," (JetStream.names_of env) = v.
Proof.
  intros Hv.
  assert (HC : Core.names_of env = JS.split "," v)
    by (unfold Core.names_of, env_list; rewrite Hv; reflexivity).
  assert (HJ : JetStream.names_of env = JS.split "," v)
    by (unfold JetStream.names_of, env_list; rewrite Hv; reflexivity).
  split; [|split; [|split]].
  - intros s Hs. destruct (Core_settings_streams env s Hs) as (Hlen & Hp & _).
    destruct (Core_parseStreamConfig_equal env Hlen) as (l & Hl & Hn & _).
    rewrite Hp in Hl. inversion Hl; subst l. rewrite Hn, HC. apply split_length.
  - intros w s Hs. destruct (JetStream_settings_streams env w s Hs) as (H1 & H2 & Hp & _).
    destruct (JetStream_parseStreamConfig_equal env H1 H2) as (l & Hl & Hn & _).
    rewrite Hp in Hl. inversion Hl; subst l. rewrite Hn, HJ. apply split_length.
  - rewrite HC. apply split_join.
  - rewrite HJ. apply split_join.
Qed.

(** A STATS_INTERVAL or NATS_PORT that is the decimal numeral of a natural
    number [n] is read as the Number nearest to [n], and a STATS_INTERVAL
    with a minus sign in front as the Number nearest to [-n].  Up to [2^53]
    that Number is [n] itself: the loaders accept zero and negative
    intervals and ports as they are.  Beyond, the numeral is rounded to 53
    significant bits, and from [2^1024] on it is read as an infinity. *)
Theorem numerals_read_as_numbers (env : gmap string string) (n : nat) :
  ((forall s, Core.settings env = Ret s ->
      (env !! "STATS_INTERVAL" = Some (JS.nat_toString n) ->
       Core.statsInterval s = JS.to_Number (Z.of_nat n)) /\
      (env !! "STATS_INTERVAL" = Some (String "-" (JS.nat_toString n)) ->
       Core.statsInterval s = JS.to_Number (- Z.of_nat n)) /\
      (env !! "NATS_PORT" = Some (JS.nat_toString n) ->
       Core.port (Core.nats s) = JS.to_Number (Z.of_nat n)))
   /\
   (forall (w : World) s, fst (JetStream.settings env w) = Ret s ->
      (env !! "STATS_INTERVAL" = Some (JS.nat_toString n) ->
       JetStream.statsInterval s = JS.to_Number (Z.of_nat n)) /\
      (env !! "STATS_INTERVAL" = Some (String "-" (JS.nat_toString n)) ->
       JetStream.statsInterval s = JS.to_Number (- Z.of_nat n)) /\
      (env !! "NATS_PORT" = Some (JS.nat_toString n) ->
       JetStream.port (JetStream.nats s) = JS.to_Number (Z.of_nat n))))
  /\
  ((Z.of_nat n <= 2 ^ 53)%Z ->
   JS.to_Number (Z.of_nat n) = JS.Num (Z.of_nat n) /\
   JS.to_Number (- Z.of_nat n) = JS.Num (- Z.of_nat n))
  /\
  ((2 ^ 1024 <= Z.of_nat n)%Z ->
   JS.to_Number (Z.of_nat n) = JS.Infinity false /\
   JS.to_Number (- Z.of_nat n) = JS.Infinity true).
Proof.
  assert (Hdef : forall d, JS.or_default (Some (JS.nat_toString n)) d = JS.nat_toString n).
  { intros d. destruct (nat_toString_nonempty n) as (c & r & ->). reflexivity. }
  split; [split|split].
  - intros s Hs. destruct (Core_settings_streams env s Hs) as (_ & _ & Hi & Hp).
    repeat split; intros Hv.
    + rewrite Hi, Hv, Hdef. apply parseInt_numeral.
    + rewrite Hi, Hv. apply parseInt_negative_numeral.
    + rewrite Hp, Hv, Hdef. apply parseInt_numeral.
  - intros w s Hs. destruct (JetStream_settings_streams env w s Hs) as (_ & _ & _ & Hi & Hp).
    repeat split; intros Hv.
    + rewrite Hi, Hv, Hdef. apply parseInt_numeral.
    + rewrite Hi, Hv. apply parseInt_negative_numeral.
    + rewrite Hp, Hv, Hdef. apply parseInt_numeral.
  - intros Hn. split; apply to_Number_exact; lia.
  - intros Hn. rewrite !to_Number_overflow by (rewrite ?Z.abs_opp, Z.abs_eq; lia).
    split; f_equal; [apply Z.ltb_ge|apply Z.ltb_lt]; lia.
Qed.

(** Loading fails in one way only, with the mismatched-lengths error: an
    unreadable credential file, an empty value or a text that is no number
    never makes the loader throw. *)
Theorem load_fails_only_on_lengths (env : gmap string string) (e : Exn) :
  (Core.settings env = Throw e ->
   e = Error "Stream configuration arrays must have the same length")
  /\
  (forall w : World, fst (JetStream.settings env w) = Throw e ->
   e = Error "Stream configuration arrays must have the same length").
Proof.
  split.
  - intros H.
    destruct (Nat.eq_dec (length (Core.names_of env)) (length (Core.subjects_of env)))
      as [Hlen|Hlen].
    + destruct (Core_parseStreamConfig_equal env Hlen) as (l & Hl & _).
      unfold Core.settings in H. rewrite Hl in H. discriminate.
    + unfold Core.settings in H. rewrite (Core_parseStreamConfig_mismatch env Hlen) in H.
      inversion H. reflexivity.
  - intros w H. pose proof (JetStream_settings_result env w) as R.
    destruct (Nat.eq_dec (length (JetStream.names_of env))
                         (length (JetStream.subjects_of env))) as [H1|H1];
      [destruct (Nat.eq_dec (length (JetStream.names_of env))
                            (length (JetStream.streams_of env))) as [H2|H2]|].
    + destruct (JetStream_parseStreamConfig_equal env H1 H2) as (l & Hl & _).
      rewrite Hl in R. destruct R as (s & Hs & _). rewrite H in Hs. discriminate.
    + rewrite JetStream_parseStreamConfig_mismatch in R by (intros [A B]; congruence).
      rewrite H in R. inversion R. reflexivity.
    + rewrite JetStream_parseStreamConfig_mismatch in R by (intros [A B]; congruence).
      rewrite H in R. inversion R. reflexivity.
Qed.

End Loaders.

(** ** Credentials, from the environment to the connection attempt *)

Section Credentials.
Context `{P : Platform}.

Lemma with_events_nil (w : World) : with_events [] w = w.
Proof. destruct w. unfold with_events. simpl. rewrite app_nil_r. reflexivity. Qed.

Lemma with_events_app (e1 e2 : list Event) (w : World) :
  with_events e2 (with_events e1 w) = with_events (e1 ++ e2) w.
Proof. unfold with_events. simpl. rewrite app_assoc. reflexivity. Qed.

Lemma connect_attempts_app (tr1 tr2 : list Event) :
  connect_attempts (tr1 ++ tr2) = connect_attempts tr1 ++ connect_attempts tr2.
Proof. apply omap_app. Qed.

Lemma subscriptions_app (tr1 tr2 : list Event) :
  subscriptions (tr1 ++ tr2) = subscriptions tr1 ++ subscriptions tr2.
Proof. apply omap_app. Qed.

Lemma file_reads_app (tr1 tr2 : list Event) :
  file_reads (tr1 ++ tr2) = file_reads tr1 ++ file_reads tr2.
Proof. apply omap_app. Qed.

Lemma local_events_app (e1 e2 : list Event) :
  local_events e1 -> local_events e2 -> local_events (e1 ++ e2).
Proof.
  intros [A1 B1] [A2 B2]. split;
    [rewrite connect_attempts_app, A1, A2|rewrite subscriptions_app, B1, B2]; reflexivity.
Qed.

Lemma loadCredentialFile_effect (filePath : JS.str_opt) (w : World) :
  exists v evs, JetStream.loadCredentialFile filePath w = (Ret v, with_events evs w).
Proof.
  unfold JetStream.loadCredentialFile.
  destruct (JS.truthy filePath); simpl.
  - unfold try_catch, bind, emit, call, ret, console_warn; simpl.
    destruct (readFileSync_utf8 (default "" filePath)); simpl.
    + eexists. exists [FileRead (default "" filePath)]. reflexivity.
    + eexists. eexists [_; _]. unfold with_events. simpl. rewrite <- app_assoc. reflexivity.
  - exists None, []. rewrite with_events_nil. reflexivity.
Qed.

(** With both inline credentials set, the JetStream loader reads no file
    and prints nothing: the process is left as it was, and the loaded JWT
    and key are the inline values. *)
Theorem inline_credentials_skip_files (env : gmap string string) (w : World) :
  JS.truthy (env !! "NATS_JWT") = true ->
  JS.truthy (env !! "NATS_NKEY") = true ->
  snd (JetStream.settings env w) = w /\
  forall s, fst (JetStream.settings env w) = Ret s ->
    JetStream.jwt (JetStream.nats s) = env !! "NATS_JWT" /\
    JetStream.nkey (JetStream.nats s) = env !! "NATS_NKEY".
Proof.
  intros Hj Hk.
  destruct (JetStream_settings_shape env w) as (j & k & w1 & w2 & Ej & Ek & Hw & R).
  unfold JetStream.inline_or_file in Ej, Ek. rewrite Hj in Ej. rewrite Hk in Ek.
  unfold ret in Ej, Ek.
  injection Ej as Hj1 Hj2. rewrite <- Hj2 in Ek. injection Ek as Hk1 Hk2.
  rewrite <- Hk2 in Hw. rewrite <- Hj1, <- Hk1 in R. clear Hj1 Hk1 Hj2 Hk2 j k w1 w2.
  split; [exact Hw|].
  intros s Hs. destruct (JetStream.parseStreamConfig env).
  - destruct R as (s' & Hs' & _ & A & B & _). rewrite Hs in Hs'. inversion Hs'; subst. auto.
  - rewrite Hs in R. discriminate.
Qed.

(** Without an inline JWT, the JetStream loader takes the JWT from the file
    named by NATS_JWT_FILE: the trimmed text of the file, or nothing, with a
    warning on the console, when the file cannot be read. *)
Theorem credential_file_fallback (env : gmap string string) (w : World) (path : string) :
  JS.truthy (env !! "NATS_JWT") = false ->
  env !! "NATS_JWT_FILE" = Some path ->
  path <> "" ->
  forall s, fst (JetStream.settings env w) = Ret s ->
    JetStream.jwt (JetStream.nats s)
    = match readFileSync_utf8 path with
      | Ret text => Some (JS.trim text)
      | Throw _ => None
      end /\
    (is_Ret (readFileSync_utf8 path) = false ->
     ConsoleWarn ("Failed to load credential file " +:+ path +:+ ":")
     ∈ trace (snd (JetStream.settings env w))).
Proof.
  intros Hj Hf Hp s Hs.
  destruct (JetStream_settings_shape env w) as (j & k & w1 & w2 & Ej & Ek & Hw & R).
  assert (Hj' : j = match readFileSync_utf8 path with
                    | Ret text => Some (JS.trim text)
                    | Throw _ => None
                    end /\
                (is_Ret (readFileSync_utf8 path) = false ->
                 ConsoleWarn ("Failed to load credential file " +:+ path +:+ ":")
                 ∈ trace w1)).
  { unfold JetStream.inline_or_file in Ej. rewrite Hj, Hf in Ej.
    unfold JetStream.loadCredentialFile in Ej. rewrite (truthy_Some path Hp) in Ej.
    simpl in Ej. unfold try_catch, bind, emit, call, ret, console_warn in Ej. simpl in Ej.
    destruct (readFileSync_utf8 path); simpl in Ej; inversion Ej; subst; simpl.
    - split; [reflexivity|discriminate].
    - split; [reflexivity|]. intros _. set_solver. }
  destruct Hj' as [Hjv Hwarn].
  assert (Htr : exists evs, trace w2 = trace w1 ++ evs).
  { unfold JetStream.inline_or_file in Ek.
    destruct (JS.truthy (env !! "NATS_NKEY")).
    - unfold ret in Ek. inversion Ek; subst. exists []. rewrite app_nil_r. reflexivity.
    - destruct (loadCredentialFile_effect (env !! "NATS_NKEY_FILE") w1) as (v & evs & E).
      rewrite E in Ek. inversion Ek; subst. exists evs. reflexivity. }
  destruct Htr as [evs Htr].
  destruct (JetStream.parseStreamConfig env).
  - destruct R as (s' & Hs' & _ & A & _). rewrite Hs in Hs'. inversion Hs'; subst s'.
    split; [congruence|]. intros Hbad. rewrite Hw, Htr. apply elem_of_app. left. auto.
  - rewrite Hs in R. discriminate.
Qed.

Lemma JetStream_auth_effect (cfg : JetStream.NATSConfig) (w : World) :
  exists evs, snd (JetStream.configureAuthentication cfg w) = with_events evs w /\
              local_events evs.
Proof.
  unfold JetStream.configureAuthentication.
  destruct (JS.truthy (JetStream.jwtFile cfg)).
  - unfold bind, logger, emit, call, ret; simpl.
    destruct (readFileSync _); simpl; eexists [_; _]; unfold with_events; simpl;
      rewrite <- app_assoc; (split; [reflexivity|split; reflexivity]).
  - destruct (JS.truthy (JetStream.jwt cfg)), (JS.truthy (JetStream.nkey cfg)); simpl;
      eexists [_]; (split; [reflexivity|split; reflexivity]).
Qed.

Lemma Core_auth_effect (cfg : Core.NATSConfig) (w : World) :
  exists evs, snd (Core.configureAuthentication cfg w) = with_events evs w /\
              local_events evs.
Proof.
  unfold Core.configureAuthentication.
  destruct (JS.truthy (Core.credsFile cfg)).
  - unfold bind, logger, emit, call, ret; simpl.
    destruct (readFileSync _); simpl; eexists [_; _]; unfold with_events; simpl;
      rewrite <- app_assoc; (split; [reflexivity|split; reflexivity]).
  - destruct (JS.truthy (Core.userJwt cfg) && JS.truthy (Core.userSeed cfg)); simpl;
      eexists [_]; (split; [reflexivity|split; reflexivity]).
Qed.

Lemma read_if_set_effect (path : JS.str_opt) (w : World) :
  exists evs, snd (JetStream.read_if_set path w) = with_events evs w /\ local_events evs.
Proof.
  unfold JetStream.read_if_set. destruct (JS.truthy path).
  - unfold bind, emit, call, ret; simpl. destruct (readFileSync_utf8 _); simpl;
      eexists [_]; (split; [reflexivity|split; reflexivity]).
  - exists []. rewrite with_events_nil. split; [reflexivity|split; reflexivity].
Qed.

Lemma bind_effect {A B} (m : M A) (k : A -> M B) (w : World) :
  (exists evs, snd (m w) = with_events evs w /\ local_events evs) ->
  (forall a w', exists evs, snd (k a w') = with_events evs w' /\ local_events evs) ->
  exists evs, snd (bind m k w) = with_events evs w /\ local_events evs.
Proof.
  intros (e1 & H1 & L1) Hk. unfold bind.
  destruct (m w) as [[a|e] w1]; simpl in *; [|eauto].
  destruct (Hk a w1) as (e2 & H2 & L2). exists (e1 ++ e2).
  rewrite H2, H1, with_events_app. split; [reflexivity|apply local_events_app; assumption].
Qed.

Lemma local_one (e : Event) :
  local_events [e] -> forall w, exists evs, snd (emit e w) = with_events evs w /\ local_events evs.
Proof. intros H w. exists [e]. split; [reflexivity|exact H]. Qed.

Lemma JetStream_tls_effect (paths : JetStream.TlsPaths) (w : World) :
  exists evs, snd (JetStream.configureTls paths w) = with_events evs w /\ local_events evs.
Proof.
  unfold JetStream.configureTls.
  destruct (JS.truthy (JetStream.cert paths) || JS.truthy (JetStream.key paths)
            || JS.truthy (JetStream.ca paths)).
  - apply bind_effect; [apply local_one; split; reflexivity|]. intros _ w1.
    apply bind_effect; [apply read_if_set_effect|]. intros c w2.
    apply bind_effect; [apply read_if_set_effect|]. intros k w3.
    apply bind_effect; [apply read_if_set_effect|]. intros a w4.
    exists []. rewrite with_events_nil. split; [reflexivity|split; reflexivity].
  - exists []. rewrite with_events_nil. split; [reflexivity|split; reflexivity].
Qed.

(** The last step of [connect], shared by the two variants. *)
Lemma dial_effect (opts : ConnectionOptions) (w : World) :
  let r :=
    try_catch
      (emit (Connect opts) ;;
       c <- call (nats_connect opts) ;;
       update (set_nc (Some c)) ;;
       logger "NATSConsumer" info "Connected to NATS")
      (fun e => logger "NATSConsumer" error "Failed to connect to NATS:" ;; throw e) w in
  match nats_connect opts with
  | Ret c =>
      r = (Ret tt, with_events [Connect opts; Logged "NATSConsumer" info "Connected to NATS"]
                     (set_this (set_nc (Some c) (this w)) w))
  | Throw e =>
      r = (Throw e, with_events [Connect opts;
                                 Logged "NATSConsumer" error "Failed to connect to NATS:"] w)
  end.
Proof.
  unfold try_catch, bind, emit, call, update, logger, throw, with_events. simpl.
  destruct (nats_connect opts); simpl; rewrite <- app_assoc; reflexivity.
Qed.

(** What [connect] does, in both variants, whatever the configuration: it
    calls the broker at most once (it never retries), it touches nothing of
    the consumer but the connection, and it stores a connection exactly when
    it returns normally, after exactly one call; when it throws, the
    connection field is as before. *)
Theorem connect_once :
  (forall (cfg : JetStream.NATSConfig) (w : World),
     let r := JetStream.connect cfg w in
     length (connect_attempts (trace (snd r))) <= S (length (connect_attempts (trace w))) /\
     set_nc (nc (this w)) (this (snd r)) = this w /\
     timers (snd r) = timers w /\
     match fst r with
     | Ret _ =>
         is_Some (nc (this (snd r))) /\
         length (connect_attempts (trace (snd r))) = S (length (connect_attempts (trace w)))
     | Throw _ => nc (this (snd r)) = nc (this w)
     end)
  /\
  (forall (cfg : Core.NATSConfig) (w : World),
     let r := Core.connect cfg w in
     length (connect_attempts (trace (snd r))) <= S (length (connect_attempts (trace w))) /\
     set_nc (nc (this w)) (this (snd r)) = this w /\
     timers (snd r) = timers w /\
     match fst r with
     | Ret _ =>
         is_Some (nc (this (snd r))) /\
         length (connect_attempts (trace (snd r))) = S (length (connect_attempts (trace w)))
     | Throw _ => nc (this (snd r)) = nc (this w)
     end).
Proof.
  assert (Hid : forall o : NATSConsumer, set_nc (nc o) o = o) by (intros []; reflexivity).
  assert (Hset : forall c (o : NATSConsumer), set_nc (nc o) (set_nc c o) = o)
    by (intros c []; reflexivity).
  assert (Hfin : forall (w : World) (res : Outcome unit) (w' : World) evs opts,
            connect_attempts evs = [] ->
            try_catch
              (emit (Connect opts) ;;
               c <- call (nats_connect opts) ;;
               update (set_nc (Some c)) ;;
               logger "NATSConsumer" info "Connected to NATS")
              (fun e => logger "NATSConsumer" error "Failed to connect to NATS:" ;; throw e)
              (with_events evs w) = (res, w') ->
            length (connect_attempts (trace w')) <= S (length (connect_attempts (trace w))) /\
            set_nc (nc (this w)) (this w') = this w /\
            timers w' = timers w /\
            match res with
            | Ret _ =>
                is_Some (nc (this w')) /\
                length (connect_attempts (trace w')) = S (length (connect_attempts (trace w)))
            | Throw _ => nc (this w') = nc (this w)
            end).
  { intros w res w' evs opts A E.
    pose proof (dial_effect opts (with_events evs w)) as D. cbv zeta in D.
    destruct (nats_connect opts); rewrite D in E; inversion E; subst; simpl;
      rewrite !connect_attempts_app, A, ?Hset, ?Hid; simpl;
      rewrite ?length_app; simpl; repeat split; eauto; lia. }
  assert (Hstop : forall (w : World) evs,
            connect_attempts evs = [] ->
            length (connect_attempts (trace (with_events evs w)))
            <= S (length (connect_attempts (trace w))) /\
            set_nc (nc (this w)) (this (with_events evs w)) = this w /\
            timers (with_events evs w) = timers w /\
            nc (this (with_events evs w)) = nc (this w)).
  { intros w evs A. simpl. rewrite connect_attempts_app, A, Hid, app_nil_r.
    repeat split; lia. }
  split.
  - intros cfg w. cbv zeta.
    destruct (JetStream.connect cfg w) as [res w'] eqn:E. simpl.
    unfold JetStream.connect in E. unfold bind at 1 in E.
    destruct (JetStream_auth_effect cfg w) as (e1 & H1 & [A1 _]).
    destruct (JetStream.configureAuthentication cfg w) as [[a|e] w1]; simpl in H1; subst w1.
    + unfold bind at 1 in E.
      destruct (JetStream_tls_effect (JetStream.tls cfg) (with_events e1 w))
        as (e2 & H2 & [A2 _]).
      destruct (JetStream.configureTls (JetStream.tls cfg) (with_events e1 w))
        as [[t|e] w2]; simpl in H2; subst w2; rewrite with_events_app in E.
      * eapply Hfin; [|exact E]. rewrite connect_attempts_app, A1, A2. reflexivity.
      * inversion E; subst. apply Hstop. rewrite connect_attempts_app, A1, A2. reflexivity.
    + inversion E; subst. apply Hstop. exact A1.
  - intros cfg w. cbv zeta.
    destruct (Core.connect cfg w) as [res w'] eqn:E. simpl.
    unfold Core.connect in E. unfold bind at 1 in E.
    destruct (Core_auth_effect cfg w) as (e1 & H1 & [A1 _]).
    destruct (Core.configureAuthentication cfg w) as [[a|e] w1]; simpl in H1; subst w1.
    + eapply Hfin; [|exact E]. exact A1.
    + inversion E; subst. apply Hstop. exact A1.
Qed.

End Credentials.

Section ConnectionAttempt.
Context `{P : Platform}.

(** With inline credentials and nothing else (no credentials file, no TLS
    path), [connect] makes exactly one attempt: at [nats://host:port] (in
    the core variant at NATS_SERVER_URL when that is set), under the client
    name, with the credentials authenticator over the envelope and without
    TLS options.  It returns normally with the new connection stored when
    the broker accepts, and throws the broker's error otherwise. *)
Theorem inline_connect_options (J K : string) :
  J <> "" -> K <> "" ->
  (forall (cfg : JetStream.NATSConfig) (w : World),
     JS.truthy (JetStream.jwtFile cfg) = false ->
     JetStream.jwt cfg = Some J -> JetStream.nkey cfg = Some K ->
     JetStream.tls cfg = no_tls ->
     let opts := {|
       servers := "nats://" +:+ JetStream.host cfg +:+ ":"
                  +:+ JS.number_toString (JetStream.port cfg);
       opts_name := JetStream.clientName cfg;
       authenticator :=
         Some (credsAuthenticator (JS.TextEncoder_encode (creds_envelope J K)));
       opts_tls := None |} in
     let r := JetStream.connect cfg w in
     connect_attempts (trace (snd r)) = connect_attempts (trace w) ++ [opts] /\
     file_reads (trace (snd r)) = file_reads (trace w) /\
     match nats_connect opts with
     | Ret c => fst r = Ret tt /\ nc (this (snd r)) = Some c
     | Throw e => fst r = Throw e /\ nc (this (snd r)) = nc (this w)
     end)
  /\
  (forall (cfg : Core.NATSConfig) (w : World),
     JS.truthy (Core.credsFile cfg) = false ->
     Core.userJwt cfg = Some J -> Core.userSeed cfg = Some K ->
     let opts := {|
       servers := if JS.truthy (Core.serverUrl cfg) then default "" (Core.serverUrl cfg)
                  else "nats://" +:+ Core.host cfg +:+ ":"
                       +:+ JS.number_toString (Core.port cfg);
       opts_name := Core.clientName cfg;
       authenticator :=
         Some (credsAuthenticator (JS.TextEncoder_encode (creds_envelope J K)));
       opts_tls := None |} in
     let r := Core.connect cfg w in
     connect_attempts (trace (snd r)) = connect_attempts (trace w) ++ [opts] /\
     file_reads (trace (snd r)) = file_reads (trace w) /\
     match nats_connect opts with
     | Ret c => fst r = Ret tt /\ nc (this (snd r)) = Some c
     | Throw e => fst r = Throw e /\ nc (this (snd r)) = nc (this w)
     end).
Proof.
  intros HJ HK. split.
  - intros cfg w Hf Hj Hk Ht. cbv zeta.
    assert (Hauth : JetStream.configureAuthentication cfg w
              = (Ret (Some (credsAuthenticator
                              (JS.TextEncoder_encode (creds_envelope J K)))),
                 with_events [Logged "NATSConsumer" info
                                "Using inline JWT + NKey authentication"] w)).
    { unfold JetStream.configureAuthentication.
      rewrite Hf, Hj, Hk, (truthy_Some J HJ), (truthy_Some K HK). reflexivity. }
    assert (Htls : forall w1, JetStream.configureTls (JetStream.tls cfg) w1 = (Ret None, w1)).
    { intros w1. rewrite Ht. reflexivity. }
    destruct (JetStream.connect cfg w) as [res w'] eqn:E. cbn [fst snd].
    unfold JetStream.connect in E. unfold bind at 1 in E. rewrite Hauth in E.
    unfold bind at 1 in E. rewrite Htls in E.
    match type of E with context [nats_connect ?o] =>
      pose proof (dial_effect o
        (with_events [Logged "NATSConsumer" info "Using inline JWT + NKey authentication"] w))
        as D; cbv zeta in D; destruct (nats_connect o); rewrite D in E
    end; inversion E; subst; cbn [fst snd trace this with_events set_this nc set_nc];
      rewrite !connect_attempts_app, !file_reads_app;
      cbn [connect_attempts file_reads omap list_omap];
      rewrite ?app_nil_r; repeat split; reflexivity.
  - intros cfg w Hf Hj Hk. cbv zeta.
    assert (Hauth : Core.configureAuthentication cfg w
              = (Ret (credsAuthenticator (JS.TextEncoder_encode (creds_envelope J K))),
                 with_events [Logged "NATSConsumer" info
                                "Using inline JWT + NKey seed authentication"] w)).
    { unfold Core.configureAuthentication.
      rewrite Hf, Hj, Hk, (truthy_Some J HJ), (truthy_Some K HK). reflexivity. }
    destruct (Core.connect cfg w) as [res w'] eqn:E. cbn [fst snd].
    unfold Core.connect in E. unfold bind at 1 in E. rewrite Hauth in E.
    match type of E with context [nats_connect ?o] =>
      pose proof (dial_effect o
        (with_events [Logged "NATSConsumer" info
                        "Using inline JWT + NKey seed authentication"] w))
        as D; cbv zeta in D; destruct (nats_connect o); rewrite D in E
    end; inversion E; subst; cbn [fst snd trace this with_events set_this nc set_nc];
      rewrite !connect_attempts_app, !file_reads_app;
      cbn [connect_attempts file_reads omap list_omap];
      rewrite ?app_nil_r; repeat split; reflexivity.
Qed.

(** A configured credentials file that cannot be read makes [connect]
    throw the read error before the broker is called; the consumer is left
    as it was. *)
Theorem unreadable_credentials_file (path : string) (e : Exn) :
  path <> "" ->
  readFileSync path = Throw e ->
  (forall (cfg : JetStream.NATSConfig) (w : World),
     JetStream.jwtFile cfg = Some path ->
     let r := JetStream.connect cfg w in
     fst r = Throw e /\
     connect_attempts (trace (snd r)) = connect_attempts (trace w) /\
     this (snd r) = this w)
  /\
  (forall (cfg : Core.NATSConfig) (w : World),
     Core.credsFile cfg = Some path ->
     let r := Core.connect cfg w in
     fst r = Throw e /\
     connect_attempts (trace (snd r)) = connect_attempts (trace w) /\
     this (snd r) = this w).
Proof.
  intros Hp He. split; intros cfg w Hf; cbv zeta.
  - destruct (JetStream.connect cfg w) as [res w'] eqn:E. simpl.
    unfold JetStream.connect, JetStream.configureAuthentication in E.
    rewrite Hf, (truthy_Some path Hp) in E. simpl in E.
    unfold bind, logger, emit, call in E. simpl in E. rewrite He in E. simpl in E.
    inversion E; subst; simpl.
    rewrite !connect_attempts_app. simpl. rewrite !app_nil_r. auto.
  - destruct (Core.connect cfg w) as [res w'] eqn:E. simpl.
    unfold Core.connect, Core.configureAuthentication in E.
    rewrite Hf, (truthy_Some path Hp) in E. simpl in E.
    unfold bind, logger, emit, call in E. simpl in E. rewrite He in E. simpl in E.
    inversion E; subst; simpl.
    rewrite !connect_attempts_app. simpl. rewrite !app_nil_r. auto.
Qed.

(** In the JetStream variant, a configured TLS certificate that cannot be
    read makes [connect] throw the read error before the broker is called,
    also when the credentials are in order. *)
Theorem unreadable_tls_certificate (cfg : JetStream.NATSConfig) (w : World)
    (path : string) (e : Exn) :
  JS.truthy (JetStream.jwtFile cfg) = false ->
  JetStream.cert (JetStream.tls cfg) = Some path ->
  path <> "" ->
  readFileSync_utf8 path = Throw e ->
  let r := JetStream.connect cfg w in
  fst r = Throw e /\
  connect_attempts (trace (snd r)) = connect_attempts (trace w) /\
  this (snd r) = this w.
Proof.
  intros Hf Hc Hp He. cbv zeta.
  destruct (JetStream.connect cfg w) as [res w'] eqn:E. simpl.
  unfold JetStream.connect in E. unfold bind at 1 in E.
  destruct (JetStream_auth_effect cfg w) as (e1 & H1 & [A1 _]).
  assert (Hret : is_Ret (fst (JetStream.configureAuthentication cfg w)) = true).
  { unfold JetStream.configureAuthentication. rewrite Hf.
    destruct (JS.truthy (JetStream.jwt cfg)), (JS.truthy (JetStream.nkey cfg));
      reflexivity. }
  destruct (JetStream.configureAuthentication cfg w) as [[a|e0] w1]; simpl in *;
    [|discriminate]. subst w1.
  unfold JetStream.configureTls in E. rewrite Hc, (truthy_Some path Hp) in E.
  cbn [orb] in E. unfold JetStream.read_if_set at 1 in E.
  rewrite (truthy_Some path Hp) in E.
  unfold bind, logger, emit, call in E. simpl in E. rewrite He in E. simpl in E.
  inversion E; subst; simpl.
  rewrite !connect_attempts_app, A1. simpl. rewrite !app_nil_r. auto.
Qed.

End ConnectionAttempt.

(** ** Starting the consumer *)

Section Start.
Context `{P : Platform}.

Lemma set_this_same (w : World) : set_this (this w) w = w.
Proof. destruct w. reflexivity. Qed.

Lemma with_events_set_this (evs : list Event) (o : NATSConsumer) (w : World) :
  set_this o (with_events evs w) = with_events evs (set_this o w).
Proof. reflexivity. Qed.

Lemma dial_outcome (opts : ConnectionOptions) (w : World) (evs : list Event)
    (res : Outcome unit) (w' : World) :
  local_events evs ->
  try_catch
    (emit (Connect opts) ;;
     c <- call (nats_connect opts) ;;
     update (set_nc (Some c)) ;;
     logger "NATSConsumer" info "Connected to NATS")
    (fun e => logger "NATSConsumer" error "Failed to connect to NATS:" ;; throw e)
    (with_events evs w) = (res, w') ->
  connect_outcome res w w'.
Proof.
  intros [A B] E.
  pose proof (dial_effect opts (with_events evs w)) as D. cbv zeta in D.
  destruct (nats_connect opts) as [c|e]; rewrite D in E; inversion E; subst.
  - exists (evs ++ [Connect opts; Logged "NATSConsumer" info "Connected to NATS"]), (Some c).
    split; [|split; [rewrite subscriptions_app, B; reflexivity|]].
    + unfold with_events, set_this. simpl. rewrite <- app_assoc. reflexivity.
    + split; [eauto|]. rewrite connect_attempts_app, A. reflexivity.
  - exists (evs ++ [Connect opts; Logged "NATSConsumer" error "Failed to connect to NATS:"]),
      (nc (this w)).
    split; [|split; [rewrite subscriptions_app, B; reflexivity|]].
    + destruct w as [[]]. unfold with_events, set_this. simpl.
      rewrite <- app_assoc. reflexivity.
    + split; [reflexivity|]. rewrite connect_attempts_app, A. simpl. lia.
Qed.

Lemma stopped_outcome (w : World) (evs : list Event) (e : Exn) :
  local_events evs -> connect_outcome (Throw e) w (with_events evs w).
Proof.
  intros [A B]. exists evs, (nc (this w)). split; [|split; [exact B|]].
  - destruct w as [[]]. reflexivity.
  - split; [reflexivity|]. rewrite A. simpl. lia.
Qed.

Lemma JetStream_connect_outcome (cfg : JetStream.NATSConfig) (w : World) :
  connect_outcome (fst (JetStream.connect cfg w)) w (snd (JetStream.connect cfg w)).
Proof.
  destruct (JetStream.connect cfg w) as [res w'] eqn:E. simpl.
  unfold JetStream.connect in E. unfold bind at 1 in E.
  destruct (JetStream_auth_effect cfg w) as (e1 & H1 & L1).
  destruct (JetStream.configureAuthentication cfg w) as [[a|e] w1]; simpl in H1; subst w1.
  - unfold bind at 1 in E.
    destruct (JetStream_tls_effect (JetStream.tls cfg) (with_events e1 w)) as (e2 & H2 & L2).
    destruct (JetStream.configureTls (JetStream.tls cfg) (with_events e1 w))
      as [[t|e] w2]; simpl in H2; subst w2; rewrite with_events_app in E.
    + eapply dial_outcome; [|exact E]. apply local_events_app; assumption.
    + inversion E; subst. apply stopped_outcome. apply local_events_app; assumption.
  - inversion E; subst. apply stopped_outcome. exact L1.
Qed.

Lemma Core_connect_outcome (cfg : Core.NATSConfig) (w : World) :
  connect_outcome (fst (Core.connect cfg w)) w (snd (Core.connect cfg w)).
Proof.
  destruct (Core.connect cfg w) as [res w'] eqn:E. simpl.
  unfold Core.connect in E. unfold bind at 1 in E.
  destruct (Core_auth_effect cfg w) as (e1 & H1 & L1).
  destruct (Core.configureAuthentication cfg w) as [[a|e] w1]; simpl in H1; subst w1.
  - eapply dial_outcome; [|exact E]. exact L1.
  - inversion E; subst. apply stopped_outcome. exact L1.
Qed.

(** One subscription, in the core variant. *)
Lemma Core_subscribe_effect (st : Core.StreamConfig) (w : World) :
  Core.subscribe st w
  = match nc (this w) with
    | None =>
        (Throw (TypeError "Cannot read properties of undefined (reading 'subscribe')"),
         with_events
           [Logged "NATSConsumer" info ("Subscribing to " +:+ Core.subject st);
            Logged "NATSConsumer" error ("Failed to subscribe to " +:+ Core.name st +:+ ":")]
           w)
    | Some c =>
        match nc_subscribe c (Core.subject st) with
        | Ret _ =>
            (Ret tt,
             with_events
               [Logged "NATSConsumer" info ("Subscribing to " +:+ Core.subject st);
                Subscribed (Core.subject st);
                Logged "NATSConsumer" info ("Successfully subscribed to " +:+ Core.name st)]
               w)
        | Throw e =>
            (Throw e,
             with_events
               [Logged "NATSConsumer" info ("Subscribing to " +:+ Core.subject st);
                Subscribed (Core.subject st);
                Logged "NATSConsumer" error
                  ("Failed to subscribe to " +:+ Core.name st +:+ ":")]
               w)
        end
    end.
Proof.
  unfold Core.subscribe, try_catch, bind, logger, emit, get, call, throw, with_events. simpl.
  destruct (nc (this w)) as [c|]; simpl.
  - destruct (nc_subscribe c (Core.subject st)) as [[]|e]; simpl;
      rewrite <- !app_assoc; reflexivity.
  - rewrite <- !app_assoc. reflexivity.
Qed.

(** One subscription, in the JetStream variant. *)
Lemma JetStream_subscribe_effect (st : JetStream.StreamConfig) (w : World) :
  let opts := {| ackExplicit := true; manualAck := true;
                 bindStream := JetStream.stream st; maxDeliver := 1; deliverNew := true |} in
  let line := "Subscribing to " +:+ JetStream.subject st +:+ " on stream "
              +:+ JetStream.stream st in
  JetStream.subscribe st w
  = match nc (this w) with
    | None =>
        (Throw (TypeError "Cannot read properties of undefined (reading 'subscribe')"),
         with_events
           [Logged "NATSConsumer" info line;
            Logged "NATSConsumer" error
              ("Failed to subscribe to " +:+ JetStream.name st +:+ ":")]
           w)
    | Some c =>
        match js_subscribe c (JetStream.subject st) opts with
        | Ret _ =>
            (Ret tt,
             with_events
               [Logged "NATSConsumer" info line;
                Subscribed (JetStream.subject st);
                Logged "NATSConsumer" info
                  ("Successfully subscribed to " +:+ JetStream.name st)]
               w)
        | Throw e =>
            (Throw e,
             with_events
               [Logged "NATSConsumer" info line;
                Subscribed (JetStream.subject st);
                Logged "NATSConsumer" error
                  ("Failed to subscribe to " +:+ JetStream.name st +:+ ":")]
               w)
        end
    end.
Proof.
  cbv zeta.
  unfold JetStream.subscribe, try_catch, bind, logger, emit, get, call, throw, with_events.
  simpl. destruct (nc (this w)) as [c|]; simpl.
  - destruct (js_subscribe c (JetStream.subject st) _) as [[]|e]; simpl;
      rewrite <- !app_assoc; reflexivity.
  - rewrite <- !app_assoc. reflexivity.
Qed.

(** Subscribing to a list of streams: the subjects attempted are a prefix of
    the list, the whole list when every subscription succeeds. *)
Lemma Core_subscribe_all (sts : list Core.StreamConfig) (w : World) :
  exists evs k,
    snd (for_each Core.subscribe sts w) = with_events evs w /\
    connect_attempts evs = [] /\
    subscriptions evs = Core.subject <$> take k sts /\
    match fst (for_each Core.subscribe sts w) with
    | Ret _ => k = length sts
    | Throw _ => k <= length sts
    end.
Proof.
  revert w. induction sts as [|st rest IH]; intros w.
  - exists [], 0. simpl. rewrite with_events_nil. auto.
  - simpl. unfold bind at 1 2. rewrite Core_subscribe_effect.
    destruct (nc (this w)) as [c|] eqn:Hc.
    + destruct (nc_subscribe c (Core.subject st)) as [[]|e].
      * match goal with |- context [for_each _ rest ?w0] =>
          destruct (IH w0) as (evs & k & Hw & Ha & Hs & Hk) end.
        eexists (_ ++ evs), (S k). rewrite Hw, with_events_app.
        split; [reflexivity|]. rewrite connect_attempts_app, subscriptions_app, Ha, Hs.
        split; [reflexivity|]. split; [reflexivity|].
        destruct (fst (for_each Core.subscribe rest _)); simpl; lia.
      * eexists _, 1. simpl. split; [reflexivity|]. repeat split. lia.
    + eexists _, 0. simpl. split; [reflexivity|]. repeat split. lia.
Qed.

Lemma JetStream_subscribe_all (sts : list JetStream.StreamConfig) (w : World) :
  exists evs k,
    snd (for_each JetStream.subscribe sts w) = with_events evs w /\
    connect_attempts evs = [] /\
    subscriptions evs = JetStream.subject <$> take k sts /\
    match fst (for_each JetStream.subscribe sts w) with
    | Ret _ => k = length sts
    | Throw _ => k <= length sts
    end.
Proof.
  revert w. induction sts as [|st rest IH]; intros w.
  - exists [], 0. simpl. rewrite with_events_nil. auto.
  - simpl. unfold bind at 1 2.
    pose proof (JetStream_subscribe_effect st w) as E. cbv zeta in E. rewrite E. clear E.
    destruct (nc (this w)) as [c|] eqn:Hc.
    + destruct (js_subscribe c (JetStream.subject st) _) as [[]|e].
      * match goal with |- context [for_each _ rest ?w0] =>
          destruct (IH w0) as (evs & k & Hw & Ha & Hs & Hk) end.
        eexists (_ ++ evs), (S k). rewrite Hw, with_events_app.
        split; [reflexivity|]. rewrite connect_attempts_app, subscriptions_app, Ha, Hs.
        split; [reflexivity|]. split; [reflexivity|].
        destruct (fst (for_each JetStream.subscribe rest _)); simpl; lia.
      * eexists _, 1. simpl. split; [reflexivity|]. repeat split. lia.
    + eexists _, 0. simpl. split; [reflexivity|]. repeat split. lia.
Qed.

Ltac world_simpl :=
  cbn [trace this timers next_timer with_events set_this set_running set_statsInterval
       set_nc set_messageCount set_parser nc running statsInterval messageCount parser
       fst snd].

Ltac world_simpl_in H :=
  cbn [trace this timers next_timer with_events set_this set_running set_statsInterval
       set_nc set_messageCount set_parser nc running statsInterval messageCount parser
       fst snd] in H.

Lemma start_sequence_started {A} (connect : M unit) (subscribe : A -> M unit)
    (subject : A -> string) (streams : list A) (ms : JS.JSNumber) (w : World) :
  (forall w0, connect_outcome (fst (connect w0)) w0 (snd (connect w0))) ->
  (forall w0, exists evs k,
      snd (for_each subscribe streams w0) = with_events evs w0 /\
      connect_attempts evs = [] /\
      subscriptions evs = subject <$> take k streams /\
      match fst (for_each subscribe streams w0) with
      | Ret _ => k = length streams
      | Throw _ => k <= length streams
      end) ->
  started subject streams (fst (start_sequence connect subscribe streams ms w)) w
    (snd (start_sequence connect subscribe streams ms w)).
Proof.
  intros Hconnect Hsub.
  destruct (start_sequence connect subscribe streams ms w) as [res w'] eqn:E. simpl.
  unfold start_sequence in E. unfold bind at 1, logger at 1, emit at 1 in E.
  change {| this := this w; timers := timers w; next_timer := next_timer w;
            trace := trace w ++ [Logged "NATSConsumer" info "Starting consumer"] |}
    with (with_events [Logged "NATSConsumer" info "Starting consumer"] w) in E.
  set (w0 := with_events [Logged "NATSConsumer" info "Starting consumer"] w) in *.
  unfold bind at 1 in E.
  destruct (Hconnect w0) as (e1 & n & Hw1 & S1 & Hres).
  destruct (connect w0) as [[[]|e] w1]; simpl in Hw1, Hres; subst w1.
  - destruct Hres as [Hn A1].
    unfold bind at 1, update at 1 in E. cbv beta iota in E. unfold bind at 1 in E.
    match type of E with context [for_each subscribe streams ?w2] =>
      destruct (Hsub w2) as (e2 & k & Hw2 & A2 & S2 & Hk);
      destruct (for_each subscribe streams w2) as [[[]|e] w3]; simpl in Hw2, Hk; subst w3
    end.
    + subst w0. unfold reportStats, bind, setInterval, update in E. world_simpl_in E.
      inversion E; subst; unfold started; world_simpl.
      rewrite !connect_attempts_app, !subscriptions_app, A2, S1, S2, !length_app, A1.
      cbn [connect_attempts subscriptions omap list_omap length].
      rewrite firstn_all, !app_nil_r.
      destruct Hn as [c ->]. repeat split; eauto; lia.
    + subst w0. inversion E; subst; unfold started; world_simpl.
      rewrite !connect_attempts_app, !subscriptions_app, A2, S1, S2, !length_app, A1.
      cbn [connect_attempts subscriptions omap list_omap length].
      rewrite !app_nil_r. repeat split; try lia; try reflexivity.
      exists k. split; [exact Hk|]. split; [reflexivity|]. right. destruct Hn as [c ->]. eauto.
  - subst w0. destruct Hres as [-> A1]. inversion E; subst; unfold started; world_simpl.
    rewrite !connect_attempts_app, !subscriptions_app, S1, !length_app.
    cbn [connect_attempts subscriptions omap list_omap length].
    rewrite !app_nil_r. destruct (this w); world_simpl. repeat split; try lia.
    exists 0. rewrite take_0. cbn [fmap list_fmap]. rewrite app_nil_r.
    split; [lia|]. split; [reflexivity|]. left. auto.
Qed.

(** [start], in both variants: it calls the broker's [connect] at most once
    and never touches the counters.  When it returns normally the consumer
    is running and connected after exactly one [connect], it has subscribed
    to the subject of every configured stream, in order, and the stats timer
    is newly armed.  When it throws, no timer is armed and the subjects
    subscribed to are a prefix of the configured ones: either [connect]
    failed and the consumer is as it was, or a subscription failed and the
    consumer is left connected and marked running. *)
Theorem start_postcondition :
  (forall (s : Core.Settings) (w : World),
     started Core.subject (Core.streams s) (fst (Core.start s w)) w (snd (Core.start s w)))
  /\
  (forall (s : JetStream.Settings) (w : World),
     started JetStream.subject (JetStream.streams s)
       (fst (JetStream.start s w)) w (snd (JetStream.start s w))).
Proof.
  split; intros s w.
  - apply (start_sequence_started (Core.connect (Core.nats s)) Core.subscribe Core.subject).
    + intros w0. apply Core_connect_outcome.
    + intros w0. apply Core_subscribe_all.
  - apply (start_sequence_started (JetStream.connect (JetStream.nats s))
             JetStream.subscribe JetStream.subject).
    + intros w0. apply JetStream_connect_outcome.
    + intros w0. apply JetStream_subscribe_all.
Qed.

End Start.

(** ** Messages, counters and shutdown *)

Section Running.
Context `{P : Platform}.

Lemma Core_loop_stopped (handler : string -> list byte -> M unit) (name : string)
    (msgs : list Msg) (w : World) :
  running (this w) = false ->
  Core.receiveLoop handler name msgs w = (Ret tt, w).
Proof.
  intros H. destruct msgs as [|msg rest]; [reflexivity|].
  simpl. unfold bind, get. simpl. rewrite H. reflexivity.
Qed.

Lemma JetStream_loop_unfold (name : string) (msg : Msg) (rest : list Msg) (w : World) :
  running (this w) = true ->
  JetStream.receiveLoop handleMessage name (msg :: rest) w
  = JetStream.receiveLoop handleMessage name rest
      (with_events [Ack msg] (snd (handleMessage name (data msg) w))).
Proof.
  intros Hrun. pose proof (handleMessage_effect name (data msg) w) as [Hr _].
  cbv zeta in Hr.
  destruct (handleMessage name (data msg) w) as [[[]|e] w0] eqn:Hh; simpl in Hr;
    [|discriminate].
  simpl. unfold bind at 1, get. simpl. rewrite Hrun. simpl.
  unfold bind at 1, try_catch, bind at 1. rewrite Hh. reflexivity.
Qed.

Lemma Core_loop_unfold (name : string) (msg : Msg) (rest : list Msg) (w : World) :
  running (this w) = true ->
  Core.receiveLoop handleMessage name (msg :: rest) w
  = Core.receiveLoop handleMessage name rest (snd (handleMessage name (data msg) w)).
Proof.
  intros Hrun. pose proof (handleMessage_effect name (data msg) w) as [Hr _].
  cbv zeta in Hr.
  destruct (handleMessage name (data msg) w) as [[[]|e] w0] eqn:Hh; simpl in Hr;
    [|discriminate].
  simpl. unfold bind at 1, get. simpl. rewrite Hrun. simpl.
  unfold bind at 1, try_catch. rewrite Hh. reflexivity.
Qed.

(** While the consumer is running, a receive loop fed with [handleMessage]
    counts every delivered message as received, counts as processed and
    hands to the sink exactly those whose payload decodes and parses, in
    order, and stays running.  The JetStream loop acknowledges every
    message, once and in order; the core loop acknowledges nothing. *)
Theorem receive_loops_count (name : string) (msgs : list Msg) (w : World) :
  running (this w) = true ->
  (let w' := snd (JetStream.receiveLoop handleMessage name msgs w) in
   acks (trace w') = acks (trace w) ++ msgs /\
   messageCount (this w') = messageCount (this w) + length msgs /\
   parser_messageCount (parser (this w'))
   = parser_messageCount (parser (this w)) + length (expected_sink_calls (tagged name msgs)) /\
   sink_calls (trace w') = sink_calls (trace w) ++ expected_sink_calls (tagged name msgs) /\
   running (this w') = true)
  /\
  (let w' := snd (Core.receiveLoop handleMessage name msgs w) in
   acks (trace w') = acks (trace w) /\
   messageCount (this w') = messageCount (this w) + length msgs /\
   parser_messageCount (parser (this w'))
   = parser_messageCount (parser (this w)) + length (expected_sink_calls (tagged name msgs)) /\
   sink_calls (trace w') = sink_calls (trace w) ++ expected_sink_calls (tagged name msgs) /\
   running (this w') = true).
Proof.
  revert w. induction msgs as [|msg rest IH]; intros w Hrun.
  - simpl. rewrite !app_nil_r. repeat split; (exact Hrun || lia).
  - pose proof (handleMessage_effect name (data msg) w) as
      (_ & Hm & Hp & Hrun' & _ & _ & _ & evs & Htr & Hsink & Hack & _).
    cbv zeta in *.
    assert (Hcons : expected_sink_calls (tagged name (msg :: rest))
                    = match decoded (data msg) with
                      | Some v => (name, v) :: expected_sink_calls (tagged name rest)
                      | None => expected_sink_calls (tagged name rest)
                      end) by apply expected_sink_calls_cons.
    split.
    + rewrite (JetStream_loop_unfold name msg rest w Hrun).
      match goal with |- context [JetStream.receiveLoop _ _ rest ?w0] =>
        destruct (IH w0) as [(Ha & Hm' & Hp' & Hs' & Hr') _] end.
      { simpl. rewrite Hrun'. exact Hrun. }
      simpl in Ha, Hm', Hp', Hs'.
      rewrite Ha, Hm', Hp', Hs', Hm, Hp, Hcons, !acks_app, !sink_calls_app, Htr,
        !acks_app, !sink_calls_app, Hack, Hsink.
      simpl. rewrite !app_nil_r.
      destruct (decoded (data msg)); simpl; rewrite <- ?app_assoc; repeat split;
        (exact Hr' || lia || reflexivity).
    + rewrite (Core_loop_unfold name msg rest w Hrun).
      match goal with |- context [Core.receiveLoop _ _ rest ?w0] =>
        destruct (IH w0) as [_ (Ha & Hm' & Hp' & Hs' & Hr')] end.
      { rewrite Hrun'. exact Hrun. }
      rewrite Ha, Hm', Hp', Hs', Hm, Hp, Hcons, Htr, !acks_app, !sink_calls_app, Hack, Hsink.
      rewrite !app_nil_r.
      destruct (decoded (data msg)); simpl; rewrite <- ?app_assoc; repeat split;
        (exact Hr' || lia || reflexivity).
Qed.

Lemma loops_ordered (name : string) (msgs : list Msg) (w : World) :
  parser_messageCount (parser (this w)) <= messageCount (this w) ->
  let ordered (w' : World) :=
    parser_messageCount (parser (this w')) <= messageCount (this w') /\
    messageCount (this w) <= messageCount (this w') /\
    parser_messageCount (parser (this w)) <= parser_messageCount (parser (this w')) in
  ordered (snd (JetStream.receiveLoop handleMessage name msgs w)) /\
  ordered (snd (Core.receiveLoop handleMessage name msgs w)).
Proof.
  cbv zeta. revert w. induction msgs as [|msg rest IH]; intros w Hle.
  - simpl. lia.
  - destruct (running (this w)) eqn:Hrun.
    + pose proof (handleMessage_effect name (data msg) w) as (_ & Hm & Hp & _).
      cbv zeta in Hm, Hp.
      rewrite (JetStream_loop_unfold name msg rest w Hrun),
        (Core_loop_unfold name msg rest w Hrun).
      assert (Hle' : parser_messageCount (parser (this (snd (handleMessage name (data msg) w))))
                     <= messageCount (this (snd (handleMessage name (data msg) w))))
        by (rewrite Hm, Hp; destruct (decoded (data msg)); lia).
      destruct (IH (with_events [Ack msg] (snd (handleMessage name (data msg) w))) Hle')
        as [(A1 & A2 & A3) _].
      destruct (IH (snd (handleMessage name (data msg) w)) Hle') as [_ (B1 & B2 & B3)].
      cbn [this with_events] in A2, A3.
      rewrite Hm in A2, B2. rewrite Hp in A3, B3. repeat split; lia.
    + rewrite (JetStream_loop_stopped handleMessage name (msg :: rest) w Hrun),
        (Core_loop_stopped handleMessage name (msg :: rest) w Hrun). simpl. lia.
Qed.

(** The processed counter never exceeds the received counter, and neither
    counter ever decreases: feeding payloads to the handler, running either
    receive loop and stopping all keep it so. *)
Theorem processed_at_most_received (w : World) :
  parser_messageCount (parser (this w)) <= messageCount (this w) ->
  let ordered (w' : World) :=
    parser_messageCount (parser (this w')) <= messageCount (this w') /\
    messageCount (this w) <= messageCount (this w') /\
    parser_messageCount (parser (this w)) <= parser_messageCount (parser (this w')) in
  (forall inputs, ordered (snd (feed inputs w))) /\
  (forall name msgs, ordered (snd (JetStream.receiveLoop handleMessage name msgs w))) /\
  (forall name msgs, ordered (snd (Core.receiveLoop handleMessage name msgs w))) /\
  ordered (snd (stop w)).
Proof.
  intros Hle. cbv zeta.
  assert (Hlen : forall inputs, length (expected_sink_calls inputs) <= length inputs).
  { induction inputs as [|i rest IH]; [simpl; lia|].
    rewrite expected_sink_calls_cons. destruct (decoded (snd i)); simpl; lia. }
  assert (Hfeed : forall inputs w0,
            messageCount (this (snd (feed inputs w0)))
            = messageCount (this w0) + length inputs /\
            parser_messageCount (parser (this (snd (feed inputs w0))))
            = parser_messageCount (parser (this w0)) + length (expected_sink_calls inputs)).
  { induction inputs as [|i rest IH]; intros w0.
    - simpl. lia.
    - rewrite feed_cons, expected_sink_calls_cons.
      pose proof (handleMessage_effect (fst i) (snd i) w0) as (_ & Hm & Hp & _).
      cbv zeta in *. destruct (IH (snd (handleMessage (fst i) (snd i) w0))) as [A B].
      rewrite A, B, Hm, Hp. destruct (decoded (snd i)); simpl; lia. }
  split; [|split; [|split]].
  - intros inputs. destruct (Hfeed inputs w) as [A B]. pose proof (Hlen inputs). lia.
  - intros name msgs. apply (loops_ordered name msgs w Hle).
  - intros name msgs. apply (loops_ordered name msgs w Hle).
  - pose proof (stop_effect w) as (_ & Hm & Hp & _). cbv zeta in *. rewrite Hm, Hp. lia.
Qed.

End Running.

Section Shutdown2.
Context `{P : Platform}.

(** What the handler prints and logs for one payload: for a payload that
    does not decode or parse, one error line and nothing else; otherwise
    the sink call, the header with the stream name and the new value of the
    processed counter, and then the pretty-printed value, or, when the value
    cannot be printed, an error line of the parser (the message stays
    counted as processed). *)
Theorem handleMessage_output (name : string) (payload : list byte) (w : World) :
  trace (snd (handleMessage name payload w))
  = trace w ++
    match decoded payload with
    | None => [Logged "NATSConsumer" error "Failed to parse message as JSON:"]
    | Some v =>
        SinkCall name v
        :: ConsoleLog (JS.LF +:+ "[" +:+ name +:+ "] Message #"
                       +:+ JS.nat_toString (S (parser_messageCount (parser (this w))))
                       +:+ ":")
        :: match JSON_stringify v with
           | Ret text => [ConsoleLog text]
           | Throw _ =>
               [Logged "Parser" error ("Error processing message from " +:+ name +:+ ":")]
           end
    end.
Proof.
  unfold handleMessage, Parser_processTransaction, decoded.
  unfold bind, try_catch, update, call, get, logger, console_log, emit, ret. simpl.
  destruct (StringCodec_decode payload) as [text|e1]; simpl; [|reflexivity].
  destruct (JSON_parse text) as [v|e2]; simpl; [|reflexivity].
  destruct (JSON_stringify v) as [out|e3]; simpl; rewrite <- !app_assoc; reflexivity.
Qed.

(** Once [stop] has been called, a receive loop hands no further message to
    its handler and acknowledges none, whatever the handler and whether or
    not [stop] itself threw. *)
Theorem stopped_consumer_ignores_messages (handler : string -> list byte -> M unit)
    (name : string) (msgs : list Msg) (w : World) :
  JetStream.receiveLoop handler name msgs (snd (stop w)) = (Ret tt, snd (stop w)) /\
  Core.receiveLoop handler name msgs (snd (stop w)) = (Ret tt, snd (stop w)).
Proof.
  pose proof (stop_effect w) as (Hrun & _). cbv zeta in Hrun.
  split; [apply JetStream_loop_stopped|apply Core_loop_stopped]; exact Hrun.
Qed.

(** [stop] on a consumer that was never started (no connection, no timer)
    only logs: nothing is drained, no timer is cleared, and it returns
    normally. *)
Theorem stop_before_start (w : World) :
  nc (this w) = None ->
  statsInterval (this w) = None ->
  stop w
  = (Ret tt,
     with_events [Logged "NATSConsumer" info "Stopping consumer";
                  Logged "Parser" info "Parser stopping";
                  Logged "NATSConsumer" info "Consumer stopped"]
       (set_this (set_running false (this w)) w)).
Proof.
  intros Hnc Hsi. destruct w as [[c m run p si] tm nt tr]. simpl in *. subst c si.
  unfold stop, Parser_stop, logger, bind, update, get, emit, ret, with_events, set_this.
  simpl. rewrite <- !app_assoc. reflexivity.
Qed.

Lemma stop_after_started {A} (subject : A -> string) (streams : list A) (w w' : World) :
  started subject streams (Ret tt) w w' ->
  let r := stop w' in
  running (this (snd r)) = false /\
  timers (snd r) = (timers w ∖ {[next_timer w]}) /\
  (next_timer w ∉ timers (snd r)) /\
  messageCount (this (snd r)) = messageCount (this w) /\
  parser (this (snd r)) = parser (this w) /\
  exists c, nc (this w') = Some c /\
            fst r = fst (nc_drain c) /\
            nc (this (snd r)) = Some (snd (nc_drain c)) /\
            Drained ∈ trace (snd r).
Proof.
  intros (_ & Hm & Hp & _ & [c Hc] & _ & _ & Hsi & Htm). cbv zeta.
  pose proof (stop_effect w') as (Hrun & Hm' & Hp' & _ & Htm' & Hnc & evs & Htr & Hd).
  cbv zeta in *. rewrite Hsi, Htm in Htm'. rewrite Hc in Hnc. destruct Hnc as [Hnc Hr].
  assert (Hset : ({[next_timer w]} ∪ timers w) ∖ {[next_timer w]}
                 = timers w ∖ {[next_timer w]}).
  { apply set_eq. intros x.
    rewrite !elem_of_difference, elem_of_union, elem_of_singleton. tauto. }
  split; [exact Hrun|]. split; [rewrite Htm'; exact Hset|].
  split; [rewrite Htm', Hset; intros [_ Hin]%elem_of_difference;
          apply Hin, elem_of_singleton; reflexivity|].
  split; [congruence|]. split; [congruence|].
  exists c. repeat split; try assumption.
  rewrite Htr. apply elem_of_app. right. apply elem_of_cons. right.
  apply Hd. rewrite Hc. eauto.
Qed.

(** After a [start] that returned normally, [stop] leaves the consumer not
    running, disarms the stats timer that [start] armed (the timers are
    those armed before [start], save a stale one with the same handle),
    drains the connection that [start] opened and returns what that drain
    returns; the counters are untouched by the pair. *)
Theorem start_then_stop :
  (forall (s : Core.Settings) (w : World),
     fst (Core.start s w) = Ret tt ->
     let r := stop (snd (Core.start s w)) in
     running (this (snd r)) = false /\
     timers (snd r) = (timers w ∖ {[next_timer w]}) /\
     (next_timer w ∉ timers (snd r)) /\
     messageCount (this (snd r)) = messageCount (this w) /\
     parser (this (snd r)) = parser (this w) /\
     exists c, nc (this (snd (Core.start s w))) = Some c /\
               fst r = fst (nc_drain c) /\
               nc (this (snd r)) = Some (snd (nc_drain c)) /\
               Drained ∈ trace (snd r))
  /\
  (forall (s : JetStream.Settings) (w : World),
     fst (JetStream.start s w) = Ret tt ->
     let r := stop (snd (JetStream.start s w)) in
     running (this (snd r)) = false /\
     timers (snd r) = (timers w ∖ {[next_timer w]}) /\
     (next_timer w ∉ timers (snd r)) /\
     messageCount (this (snd r)) = messageCount (this w) /\
     parser (this (snd r)) = parser (this w) /\
     exists c, nc (this (snd (JetStream.start s w))) = Some c /\
               fst r = fst (nc_drain c) /\
               nc (this (snd r)) = Some (snd (nc_drain c)) /\
               Drained ∈ trace (snd r)).
Proof.
  split; intros s w Hret.
  - apply (stop_after_started Core.subject (Core.streams s)).
    pose proof (start_sequence_started (Core.connect (Core.nats s)) Core.subscribe
                  Core.subject (Core.streams s) (Core.statsInterval s) w
                  (fun w0 => Core_connect_outcome (Core.nats s) w0)
                  (fun w0 => Core_subscribe_all (Core.streams s) w0)) as H.
    change (start_sequence _ _ _ _ w) with (Core.start s w) in H.
    rewrite Hret in H. exact H.
  - apply (stop_after_started JetStream.subject (JetStream.streams s)).
    pose proof (start_sequence_started (JetStream.connect (JetStream.nats s))
                  JetStream.subscribe JetStream.subject (JetStream.streams s)
                  (JetStream.statsInterval s) w
                  (fun w0 => JetStream_connect_outcome (JetStream.nats s) w0)
                  (fun w0 => JetStream_subscribe_all (JetStream.streams s) w0)) as H.
    change (start_sequence _ _ _ _ w) with (JetStream.start s w) in H.
    rewrite Hret in H. exact H.
Qed.

(** ** The entry point *)

(** [shutdown] always ends the process: with exit code 0 when [stop]
    returned normally, that is when there is no connection or the drain
    succeeded, and with exit code 1, after logging the error, when the drain
    threw.  Either way the consumer is not running afterwards. *)
Theorem shutdown_exit_code (signal : string) (w : World) :
  let r := shutdown signal w in
  fst r = Ret (match nc (this w) with
               | None => 0
               | Some c => if is_Ret (fst (nc_drain c)) then 0 else 1
               end) /\
  running (this (snd r)) = false /\
  (fst r = Ret 1 -> Logged "Main" error "Error during shutdown:" ∈ trace (snd r)).
Proof.
  cbv zeta. destruct (shutdown signal w) as [res w'] eqn:E. cbn [fst snd].
  unfold shutdown in E. unfold bind at 1, logger at 1, emit at 1 in E.
  match type of E with context [try_catch _ _ ?w0] =>
    pose proof (stop_effect w0) as (Hrun & _ & _ & _ & _ & Hnc & _); cbv zeta in Hrun, Hnc;
    change (nc (this w0)) with (nc (this w)) in Hnc;
    unfold try_catch, bind at 1 in E;
    destruct (stop w0) as [[[]|e] w2]
  end; cbn [fst snd] in Hrun, Hnc.
  - unfold ret in E. inversion E; subst.
    split; [|split; [exact Hrun|discriminate]].
    destruct (nc (this w)) as [c|]; [|reflexivity].
    destruct Hnc as [_ <-]. reflexivity.
  - unfold bind, logger, emit, ret in E. inversion E; subst. cbn [trace this running].
    split; [|split; [exact Hrun|intros _; apply elem_of_app; right; apply elem_of_cons; left; reflexivity]].
    destruct (nc (this w)) as [c|]; [|destruct Hnc; discriminate].
    destruct Hnc as [_ <-]. reflexivity.
Qed.


(** Under the strict policy of the core variant, the entry point with no
    credentials configured exits with code 1 without ever calling the
    broker: [main] logs the failure of [start], unless reading the version
    out of [package.json] threw before, in which case nothing was started
    and the error is printed by the handler of the entry point. *)
Theorem main_without_credentials (package_version : Outcome (option Json))
    (s : Core.Settings) (w : World) :
  JS.truthy (Core.credsFile (Core.nats s)) = false ->
  JS.truthy (Core.userJwt (Core.nats s)) && JS.truthy (Core.userSeed (Core.nats s)) = false ->
  let r := entry_point package_version (Core.start s) w in
  fst r = Ret (Some 1) /\
  connect_attempts (trace (snd r)) = connect_attempts (trace w) /\
  subscriptions (trace (snd r)) = subscriptions (trace w) /\
  match package_version with
  | Ret _ =>
      r = main package_version (Core.start s) w /\
      running (this (snd r)) = false /\
      Logged "Main" error "Failed to start consumer:" ∈ trace (snd r)
  | Throw e =>
      main package_version (Core.start s) w = (Throw e, w) /\
      snd r = with_events [ConsoleError "Fatal error:"] w
  end.
Proof.
  intros Hfile Hpair. cbv zeta. destruct package_version as [v|e].
  - unfold entry_point, main, Core.start, Core.connect, Core.configureAuthentication,
      NATSConsumer_new, Parser_new.
    rewrite Hfile, Hpair.
    unfold try_catch, bind, call, logger, emit, update, throw, ret. simpl.
    rewrite !connect_attempts_app, !subscriptions_app. simpl. rewrite !app_nil_r.
    repeat split. apply elem_of_app; right; apply elem_of_cons; left; reflexivity.
  - unfold entry_point, main, try_catch, bind, call, console_error, emit, ret.
    cbn [fst snd trace with_events].
    rewrite !connect_attempts_app, !subscriptions_app. simpl. rewrite !app_nil_r.
    repeat split.
Qed.

End Shutdown2.

(** ** The further properties at concrete inputs *)

Example start_subscription_denied :
  let r := Core.start (P:=denying_platform) (settings_inline two_targets) fresh_world in
  fst r = Throw (Error "PERMISSIONS_VIOLATION") /\
  running (this (snd r)) = true /\
  nc (this (snd r)) = Some Open /\
  statsInterval (this (snd r)) = None /\
  subscriptions (trace (snd r)) = ["allowed"; "denied"].
Proof. repeat split; reflexivity. Qed.

Example unprintable_value_is_counted :
  let w := snd (handleMessage (P:=unprintable_platform) "pumpfun"
                  (list_byte_of_string "{}") fresh_world) in
  parser_messageCount (parser (this w)) = 1 /\
  Logged "Parser" error "Error processing message from pumpfun:" ∈ trace w.
Proof. split; [reflexivity|]. vm_compute. set_solver. Qed.

Example second_signal_exits_with_one :
  fst (shutdown "SIGINT" started_world) = Ret 0 /\
  fst (shutdown "SIGINT" (snd (shutdown "SIGINT" started_world))) = Ret 1.
Proof. split; reflexivity. Qed.

Lemma targets_counted_witness :
  String.concat "," (Core.names_of env_two_streams) = "a, b".
Proof.
  destruct (targets_counted (P:=example_platform) env_two_streams "a, b")
    as (_ & _ & H & _); [vm_compute; reflexivity|exact H].
Defined.

Lemma numerals_read_as_numbers_witness :
  exists s, Core.settings env_interval = Ret s /\
            Core.statsInterval s = JS.Num 250 /\
            Core.port (Core.nats s) = JS.Num 4333.
Proof.
  destruct (Core.settings env_interval) as [s|e] eqn:Hs.
  - exists s. split; [reflexivity|].
    destruct (numerals_read_as_numbers (P:=example_platform) env_interval 250)
      as ((HC & _) & HE & _).
    destruct (numerals_read_as_numbers (P:=example_platform) env_interval 4333)
      as ((HC' & _) & HE' & _).
    assert (H250 : (Z.of_nat 250 <= 2 ^ 53)%Z) by (vm_compute; discriminate).
    assert (H4333 : (Z.of_nat 4333 <= 2 ^ 53)%Z) by (vm_compute; discriminate).
    split.
    + transitivity (JS.to_Number (Z.of_nat 250)); [|exact (proj1 (HE H250))].
      apply (HC s Hs). vm_compute. reflexivity.
    + transitivity (JS.to_Number (Z.of_nat 4333)); [|exact (proj1 (HE' H4333))].
      apply (HC' s Hs). vm_compute. reflexivity.
  - vm_compute in Hs. discriminate Hs.
Defined.

Example interval_beyond_2_53 :
  exists s, Core.settings {["STATS_INTERVAL" := "9007199254740993"]} = Ret s /\
            Core.statsInterval s = JS.Num 9007199254740992.
Proof. eexists. split; [vm_compute; reflexivity|vm_compute; reflexivity]. Qed.

Lemma inline_credentials_skip_files_witness :
  snd (JetStream.settings (P:=example_platform) env_inline_and_file fresh_world)
  = fresh_world.
Proof.
  apply (inline_credentials_skip_files (P:=example_platform) env_inline_and_file
           fresh_world); vm_compute; reflexivity.
Defined.

Lemma credential_file_fallback_witness :
  exists s,
    fst (JetStream.settings (P:=example_platform) env_missing_file fresh_world) = Ret s /\
    JetStream.jwt (JetStream.nats s) = None /\
    ConsoleWarn "Failed to load credential file missing.creds:"
    ∈ trace (snd (JetStream.settings (P:=example_platform) env_missing_file fresh_world)).
Proof.
  destruct (fst (JetStream.settings (P:=example_platform) env_missing_file fresh_world))
    as [s|e] eqn:Hs.
  - exists s. split; [reflexivity|].
    assert (Hp : "missing.creds" <> "") by discriminate.
    destruct (credential_file_fallback (P:=example_platform) env_missing_file fresh_world
                "missing.creds" eq_refl eq_refl Hp s Hs) as [Hj Hw].
    split; [exact Hj|]. apply Hw. reflexivity.
  - vm_compute in Hs. discriminate Hs.
Defined.

Lemma inline_connect_options_witness :
  fst (JetStream.connect (P:=example_platform) cfg_inline fresh_world) = Ret tt /\
  nc (this (snd (JetStream.connect (P:=example_platform) cfg_inline fresh_world)))
  = Some Open.
Proof.
  assert (HJ : "JWT" <> "") by discriminate.
  assert (HK : "SEED" <> "") by discriminate.
  destruct (inline_connect_options (P:=example_platform) "JWT" "SEED" HJ HK) as [A _].
  destruct (A cfg_inline fresh_world eq_refl eq_refl eq_refl eq_refl) as (_ & _ & H).
  exact H.
Defined.

Lemma unreadable_credentials_file_witness :
  fst (JetStream.connect (P:=example_platform) cfg_missing_file fresh_world)
  = Throw (Error "ENOENT").
Proof.
  assert (Hp : "missing.creds" <> "") by discriminate.
  destruct (unreadable_credentials_file (P:=example_platform) "missing.creds"
              (Error "ENOENT") Hp eq_refl) as [A _].
  destruct (A cfg_missing_file fresh_world eq_refl) as [H _]. exact H.
Defined.

Lemma unreadable_tls_certificate_witness :
  fst (JetStream.connect (P:=example_platform) cfg_missing_cert fresh_world)
  = Throw (Error "ENOENT").
Proof.
  assert (Hp : "missing.pem" <> "") by discriminate.
  destruct (unreadable_tls_certificate (P:=example_platform) cfg_missing_cert fresh_world
              "missing.pem" (Error "ENOENT") eq_refl eq_refl Hp eq_refl) as [H _].
  exact H.
Defined.

Lemma receive_loops_count_witness :
  acks (trace (snd (JetStream.receiveLoop (P:=example_platform) handleMessage "pumpfun"
                      two_msgs started_world))) = two_msgs /\
  acks (trace (snd (Core.receiveLoop (P:=example_platform) handleMessage "pumpfun"
                      two_msgs started_world))) = [].
Proof.
  destruct (receive_loops_count (P:=example_platform) "pumpfun" two_msgs started_world
              eq_refl) as [(A & _) (B & _)].
  split; [exact A|exact B].
Defined.

Lemma processed_at_most_received_witness :
  parser_messageCount (parser (this (snd (feed (P:=example_platform) three_payloads
                                            started_world))))
  <= messageCount (this (snd (feed (P:=example_platform) three_payloads started_world))).
Proof.
  assert (H0 : parser_messageCount (parser (this started_world))
               <= messageCount (this started_world)) by (vm_compute; lia).
  destruct (processed_at_most_received (P:=example_platform) started_world H0)
    as (F & _). destruct (F three_payloads) as [H _]. exact H.
Defined.

Lemma stop_before_start_witness :
  fst (stop (P:=example_platform) fresh_world) = Ret tt.
Proof.
  rewrite (stop_before_start (P:=example_platform) fresh_world eq_refl eq_refl).
  reflexivity.
Defined.

Lemma start_then_stop_witness :
  let r := stop (snd (Core.start (P:=example_platform) (settings_inline two_targets)
                        fresh_world)) in
  running (this (snd r)) = false /\ 0 ∉ timers (snd r).
Proof.
  destruct (start_then_stop (P:=example_platform)) as [A _].
  destruct (A (settings_inline two_targets) fresh_world eq_refl) as (H1 & _ & H3 & _).
  split; [exact H1|exact H3].
Defined.

Lemma main_without_credentials_witness :
  fst (entry_point (P:=example_platform) (Ret None) (Core.start settings_no_auth)
         fresh_world) = Ret (Some 1).
Proof.
  destruct (main_without_credentials (P:=example_platform) (Ret None) settings_no_auth
              fresh_world eq_refl eq_refl) as [H _].
  exact H.
Defined.

Example missing_package_json :
  entry_point (P:=example_platform) (Throw (Error "Cannot find module '../package.json'"))
    (Core.start (settings_inline two_targets)) fresh_world
  = (Ret (Some 1), with_events [ConsoleError "Fatal error:"] fresh_world).
Proof. reflexivity. Qed.

Example port_in_exponent_notation :
  exists s, Core.settings {["NATS_PORT" := "1000000000000000000000"]} = Ret s /\
            connect_attempts
              (trace (snd (Core.connect (P:=example_platform)
                             {| Core.serverUrl := None;
                                Core.host := Core.host (Core.nats s);
                                Core.port := Core.port (Core.nats s);
                                Core.clientName := Core.clientName (Core.nats s);
                                Core.credsFile := None;
                                Core.userJwt := Some "JWT";
                                Core.userSeed := Some "SEED" |} fresh_world)))
            = [ {| servers := "nats://localhost:1e+21";
                   opts_name := "solana-stream-consumer";
                   authenticator :=
                     Some (credsAuthenticator
                             (JS.TextEncoder_encode (creds_envelope "JWT" "SEED")));
                   opts_tls := None |} ].
Proof. eexists. split; [vm_compute; reflexivity|vm_compute; reflexivity]. Qed.
